(** * jattach: the Dynamic Attach client, embedded and checked against its
    specification.

    The development follows [src/jattach.c] function by function.  The
    program talks to the operating system through ten system calls and to
    the C library through [printf], [sprintf], [strlen] and [atoi].  The
    operating system is kept abstract (class [OS]): every theorem of the
    generic part holds for whatever the kernel and the target process answer.
    The program runs in a state monad that carries the state of the
    environment and the chronological log of the calls it has issued,
    together with their results; the properties are stated on that log.

    Layout: C data and library functions, the environment interface, the
    monad, the program, observations on logs, the shapes of runs, a small
    simulated environment used for concrete runs; then the lemmas, the
    properties of the specification, and the concrete runs. *)

From Stdlib Require Import ZArith List String Ascii Bool Lia DecimalString.
Import ListNotations.
Open Scope string_scope.
Open Scope Z_scope.

(* ================================================================== *)
(** ** C data: bytes, strings, integers *)

(** Byte sequences (write buffers, received chunks, C strings without their
    terminator) are [string]s: lists of 8-bit characters. *)

Definition NUL : ascii := Ascii.zero.
Definition LF : string := String (ascii_of_nat 10) EmptyString.

(** The memory image of a C string whose characters are [s]: the
    characters followed by the terminating null byte. *)
Definition cstr (s : string) : string := s ++ String NUL EmptyString.

(** [strlen]: the number of bytes before the first null byte. *)
Fixpoint strlen (mem : string) : nat :=
  match mem with
  | EmptyString => 0
  | String c rest => if Ascii.eqb c NUL then 0 else S (strlen rest)
  end.

(** The first [n] bytes at a pointer, as handed to [write(fd, buf, n)]. *)
Definition take (n : Z) (mem : string) : string :=
  substring 0 (Z.to_nat n) mem.

(** A string is a well-formed C string content when it has no null byte. *)
Fixpoint nul_free (s : string) : bool :=
  match s with
  | EmptyString => true
  | String c rest => negb (Ascii.eqb c NUL) && nul_free rest
  end.

(** [sprintf("%d", n)]. *)
Definition fmt_d (n : Z) : string := NilZero.string_of_int (Z.to_int n).

(** [int] is 32 bits wide; [long] 64 (LP64). *)
Definition to_int (z : Z) : Z := (z + 2 ^ 31) mod 2 ^ 32 - 2 ^ 31.
Definition LONG_MAX : Z := 2 ^ 63 - 1.
Definition LONG_MIN : Z := - 2 ^ 63.

(** [atoi] as the C library implements it, [(int) strtol(s, NULL, 10)]:
    leading white space is skipped, an optional sign is read, then the
    longest run of decimal digits; no digits give 0.  [strtol] saturates at
    the range of [long] and the conversion to [int] truncates. *)
Definition isspace (c : ascii) : bool :=
  let n := Z.of_nat (nat_of_ascii c) in
  (n =? 32) || ((9 <=? n) && (n <=? 13)).

Definition digit_of (c : ascii) : option Z :=
  let n := Z.of_nat (nat_of_ascii c) in
  if (48 <=? n) && (n <=? 57) then Some (n - 48) else None.

Fixpoint skip_spaces (s : string) : string :=
  match s with
  | String c rest => if isspace c then skip_spaces rest else s
  | EmptyString => s
  end.

Fixpoint digits (acc : Z) (s : string) : Z :=
  match s with
  | String c rest =>
      match digit_of c with
      | Some d => digits (10 * acc + d) rest
      | None => acc
      end
  | EmptyString => acc
  end.

Definition clamp_long (z : Z) : Z := Z.max LONG_MIN (Z.min LONG_MAX z).

Definition strtol (s : string) : Z :=
  match skip_spaces s with
  | String "-"%char rest => clamp_long (- digits 0 rest)
  | String "+"%char rest => clamp_long (digits 0 rest)
  | t => clamp_long (digits 0 t)
  end.

Definition atoi (s : string) : Z := to_int (strtol s).

(** Constants of the system headers (Linux values). *)
Definition S_IFMT : Z := 61440.      (* 0170000 *)
Definition S_IFSOCK : Z := 49152.    (* 0140000 *)
Definition S_IFREG : Z := 32768.     (* 0100000 *)
Definition S_ISSOCK (st_mode : Z) : bool := Z.land st_mode S_IFMT =? S_IFSOCK.
Definition SIGQUIT : Z := 3.
Definition PF_UNIX : Z := 1.
Definition AF_UNIX : Z := 1.
Definition SOCK_STREAM : Z := 1.
Definition MODE_0660 : Z := 432.     (* 0660 *)
Definition BUF_SIZE : Z := 1024.     (* sizeof(buf) in read_response *)

(** [argv[i]]; the C runtime guarantees [argc] entries. *)
Definition argv_at (argv : list string) (i : Z) : string :=
  nth (Z.to_nat i) argv "".

(* ================================================================== *)
(** ** The environment *)

(** One entry of the log per call, with the arguments and the result.
    Failure of a call returning [int] is the result -1.  [stat] yields the
    [st_mode] it stored on success; [read] yields the bytes it stored in
    the buffer, their number being its return value, or nothing on -1. *)
Inductive event : Type :=
| EStat (path : string) (r : option Z)
| ECreat (path : string) (mode : Z) (r : Z)
| EClose (fd : Z) (r : Z)
| EKill (pid sig : Z) (r : Z)
| ESleep (seconds : Z) (r : Z)
| EUnlink (path : string) (r : Z)
| ESocket (domain type protocol : Z) (r : Z)
| EConnect (fd family : Z) (path : string) (r : Z)
| EWrite (fd : Z) (buf : string) (r : Z)
| ERead (fd count : Z) (r : option string)
| EPrintf (s : string).

(** The operating system, the file system and the target process, seen
    from the program: each call answers and moves the environment.

    Every call of this interface returns.  A call that does not return,
    because a signal raised inside it terminates the process ([write] to
    a connection the peer has closed raises [SIGPIPE]; [kill] addressed
    to the caller itself or to its own process group delivers [SIGQUIT]
    to the caller), ends the run at that call: the log of such a run is
    the log of the model cut after that call, and the run has no exit
    status.  Properties of every point of a run are therefore stated on
    the prefixes of the log, and properties of an exit status are
    properties of the runs that return. *)
Class OS (W : Type) : Type := {
  os_stat : string -> W -> option Z * W;
  os_creat : string -> Z -> W -> Z * W;
  os_close : Z -> W -> Z * W;
  os_kill : Z -> Z -> W -> Z * W;
  os_sleep : Z -> W -> Z * W;
  os_unlink : string -> W -> Z * W;
  os_socket : Z -> Z -> Z -> W -> Z * W;
  os_connect : Z -> Z -> string -> W -> Z * W;
  os_write : Z -> string -> W -> Z * W;
  os_read : Z -> Z -> W -> option string * W
}.

(** The return value of [read]. *)
Definition ssize (r : option string) : Z :=
  match r with
  | Some data => Z.of_nat (String.length data)
  | None => -1
  end.

(** The buffer after [read]. *)
Definition buffer (r : option string) : string :=
  match r with
  | Some data => data
  | None => ""
  end.

(* ================================================================== *)
(** ** The program *)

Section Program.

Context {W : Type} {env : OS W}.

Record state : Type := mkState { os : W; log : list event }.

(** A computation answers [Some a], or [None] when a loop has used up its
    iteration budget; the state reached is kept in both cases. *)
Definition M (A : Type) : Type := state -> option A * state.

Definition ret {A : Type} (a : A) : M A := fun s => (Some a, s).

Definition bind {A B : Type} (m : M A) (k : A -> M B) : M B :=
  fun s =>
    match m s with
    | (Some a, s') => k a s'
    | (None, s') => (None, s')
    end.

Definition out_of_fuel {A : Type} : M A := fun s => (None, s).

Definition call {R : Type} (op : W -> R * W) (ev : R -> event) : M R :=
  fun s =>
    let (r, w) := op (os s) in
    (Some r, {| os := w; log := log s ++ [ev r] |}).

Local Notation "x <- m ;; k" := (bind m (fun x => k))
  (at level 61, m at next level, right associativity).
Local Notation "m ;;; k" := (bind m (fun _ => k))
  (at level 61, right associativity).

Definition sys_stat (path : string) : M (option Z) :=
  call (os_stat path) (EStat path).
Definition sys_creat (path : string) (mode : Z) : M Z :=
  call (os_creat path mode) (ECreat path mode).
Definition sys_close (fd : Z) : M Z :=
  call (os_close fd) (EClose fd).
Definition sys_kill (pid sig : Z) : M Z :=
  call (os_kill pid sig) (EKill pid sig).
Definition sys_sleep (seconds : Z) : M Z :=
  call (os_sleep seconds) (ESleep seconds).
Definition sys_unlink (path : string) : M Z :=
  call (os_unlink path) (EUnlink path).
Definition sys_socket (domain type protocol : Z) : M Z :=
  call (os_socket domain type protocol) (ESocket domain type protocol).
Definition sys_connect (fd family : Z) (path : string) : M Z :=
  call (os_connect fd family path) (EConnect fd family path).
Definition sys_write (fd : Z) (buf : string) (count : Z) : M Z :=
  call (os_write fd (take count buf)) (EWrite fd (take count buf)).
Definition sys_read (fd count : Z) : M (option string) :=
  call (os_read fd count) (ERead fd count).

(** [printf] hands its text to the stdio layer of the process; what
    reaches descriptor 1, and when, is [stdout_bytes] below. *)
Definition printf (s : string) : M unit :=
  fun st => (Some tt, {| os := os st; log := log st ++ [EPrintf s] |}).

Fixpoint for_each (l : list Z) (body : Z -> M unit) : M unit :=
  match l with
  | [] => ret tt
  | i :: rest => body i ;;; for_each rest body
  end.

(** [check_socket], lines 45-51. *)
Definition check_socket (pid : Z) : M Z :=
  let path := "/tmp/.java_pid" ++ fmt_d pid in
  stats <- sys_stat path ;;
  ret (match stats with
       | Some st_mode => if S_ISSOCK st_mode then 1 else 0
       | None => 0
       end).

(** The [do ... while] of [start_attach_mechanism], lines 73-76.  [retry]
    is incremented only when [result] is 0, as [&&] does. *)
Fixpoint start_attach_mechanism_loop (fuel : nat) (pid retry : Z) : M Z :=
  match fuel with
  | O => out_of_fuel
  | S fuel' =>
      sys_sleep 1 ;;;
      result <- check_socket pid ;;
      if (result =? 0) && (retry + 1 <? 10)
      then start_attach_mechanism_loop fuel' pid (retry + 1)
      else ret result
  end.

(** [start_attach_mechanism], lines 55-80. *)
Definition start_attach_mechanism (fuel : nat) (pid : Z) : M Z :=
  let activate (path : string) (fd : Z) : M Z :=
    sys_close fd ;;;
    sys_kill pid SIGQUIT ;;;
    result <- start_attach_mechanism_loop fuel pid 0 ;;
    sys_unlink path ;;;
    ret result in
  let path := "/proc/" ++ fmt_d pid ++ "/cwd/.attach_pid" ++ fmt_d pid in
  fd <- sys_creat path MODE_0660 ;;
  if fd =? -1 then
    let path := "/tmp/.attach_pid" ++ fmt_d pid in
    fd <- sys_creat path MODE_0660 ;;
    if fd =? -1 then ret 0
    else activate path fd
  else activate path fd.

(** [connect_socket], lines 83-98. *)
Definition connect_socket (pid : Z) : M Z :=
  fd <- sys_socket PF_UNIX SOCK_STREAM 0 ;;
  if fd =? -1 then ret (-1)
  else
    let sun_path := "/tmp/.java_pid" ++ fmt_d pid in
    r <- sys_connect fd AF_UNIX sun_path ;;
    if r =? -1 then sys_close fd ;;; ret (-1)
    else ret fd.

(** [write_command], lines 101-110. *)
Definition write_command (fd argc : Z) (argv : list string) : M unit :=
  sys_write fd (cstr "1") 2 ;;;
  for_each [0; 1; 2; 3] (fun i =>
    let arg := if i <? argc then argv_at argv i else "" in
    sys_write fd (cstr arg) (Z.of_nat (strlen (cstr arg)) + 1) ;;;
    ret tt).

(** [read_response], lines 113-119. *)
Fixpoint read_response (fuel : nat) (fd : Z) : M unit :=
  match fuel with
  | O => out_of_fuel
  | S fuel' =>
      r <- sys_read fd BUF_SIZE ;;
      let bytes := ssize r in
      let buf := buffer r in
      if bytes >? 0
      then sys_write 1 buf bytes ;;; read_response fuel' fd
      else ret tt
  end.

(** [main], lines 121-146.  [argv + 2] is [skipn 2 argv]. *)
Definition main (fuel : nat) (argc : Z) (argv : list string) : M Z :=
  if argc <? 3 then
    printf ("Usage: jattach <pid> <cmd> <args> ..." ++ LF) ;;;
    ret 1
  else
    let pid := atoi (argv_at argv 1) in
    ready <- check_socket pid ;;
    failed <- (if ready =? 0
               then started <- start_attach_mechanism fuel pid ;;
                    ret (started =? 0)
               else ret false) ;;
    if failed then
      printf ("Could not start attach mechanism" ++ LF) ;;;
      ret 1
    else
      fd <- connect_socket pid ;;
      if fd =? -1 then
        printf ("Could not connect to socket" ++ LF) ;;;
        ret 1
      else
        printf ("Connected to remove JVM" ++ LF) ;;;
        write_command fd (argc - 2) (skipn 2 argv) ;;;
        read_response fuel fd ;;;
        sys_close fd ;;;
        printf LF ;;;
        ret 0.

(** The C runtime calls [main] with [argc] the number of entries of
    [argv], on an empty log. *)
Definition run (fuel : nat) (argv : list string) (w : W) : option Z * state :=
  main fuel (Z.of_nat (List.length argv)) argv {| os := w; log := [] |}.

End Program.

Arguments state W : clear implicits.

(* ================================================================== *)
(** ** Observations on logs *)

(** The channel path of a target, [/tmp/.java_pid<pid>]. *)
Definition socket_path (pid : Z) : string := "/tmp/.java_pid" ++ fmt_d pid.

(** The two candidate marker paths. *)
Definition primary_marker (pid : Z) : string :=
  "/proc/" ++ fmt_d pid ++ "/cwd/.attach_pid" ++ fmt_d pid.
Definition fallback_marker (pid : Z) : string :=
  "/tmp/.attach_pid" ++ fmt_d pid.

(** What a [stat] answer means to the Channel Locator. *)
Definition ready (r : option Z) : Z :=
  match r with
  | Some st_mode => if S_ISSOCK st_mode then 1 else 0
  | None => 0
  end.

(** One poll of the wait loop: a one-second sleep, then a [stat] of the
    channel path.  A poll is recorded by the results of the two calls. *)
Definition poll_events (pid : Z) (polls : list (Z * option Z)) : list event :=
  flat_map (fun p => [ESleep 1 (fst p); EStat (socket_path pid) (snd p)]) polls.

(** The buffers handed to [write] on descriptor [fd], in order. *)
Fixpoint writes_to (fd : Z) (ev : list event) : list string :=
  match ev with
  | [] => []
  | EWrite fd' buf _ :: rest =>
      if fd' =? fd then buf :: writes_to fd rest else writes_to fd rest
  | _ :: rest => writes_to fd rest
  end.

(** The chunks [read] returned on descriptor [fd], in order. *)
Fixpoint reads_from (fd : Z) (ev : list event) : list string :=
  match ev with
  | [] => []
  | ERead fd' _ (Some data) :: rest =>
      if fd' =? fd then data :: reads_from fd rest else reads_from fd rest
  | _ :: rest => reads_from fd rest
  end.

Definition bytes (chunks : list string) : string :=
  fold_right String.append "" chunks.

(** The texts given to [printf], in order. *)
Fixpoint printed (ev : list event) : list string :=
  match ev with
  | [] => []
  | EPrintf s :: rest => s :: printed rest
  | _ :: rest => printed rest
  end.

(** The paths at which [creat] succeeded, and the paths given to [unlink]. *)
Fixpoint created (ev : list event) : list string :=
  match ev with
  | [] => []
  | ECreat path _ r :: rest =>
      if r =? -1 then created rest else path :: created rest
  | _ :: rest => created rest
  end.

Fixpoint unlinked (ev : list event) : list string :=
  match ev with
  | [] => []
  | EUnlink path _ :: rest => path :: unlinked rest
  | _ :: rest => unlinked rest
  end.

(** The signals sent, as (pid, signal, result). *)
Fixpoint signals (ev : list event) : list (Z * Z * Z) :=
  match ev with
  | [] => []
  | EKill pid sig r :: rest => (pid, sig, r) :: signals rest
  | _ :: rest => signals rest
  end.

(** The answers of the [stat] calls, in order. *)
Fixpoint stats (ev : list event) : list (option Z) :=
  match ev with
  | [] => []
  | EStat _ r :: rest => r :: stats rest
  | _ :: rest => stats rest
  end.

(** Whether a [connect] succeeded. *)
Fixpoint connected (ev : list event) : bool :=
  match ev with
  | [] => false
  | EConnect _ _ _ r :: rest => negb (r =? -1) || connected rest
  | _ :: rest => connected rest
  end.

(** *** Standard output

    [printf] writes through the stdio buffer of [stdout], [write(1, ...)]
    goes to the descriptor directly.  ISO C has three buffering modes
    ([setvbuf]): unbuffered, line buffered (the default when [stdout] is a
    terminal) and fully buffered (the default otherwise: a file or a pipe).
    The buffer is flushed when the program exits.  The program prints at
    most 38 bytes through [printf] in one run, less than any [BUFSIZ], so a
    fully buffered [stdout] is flushed at exit only. *)
Inductive buffering : Type := IONBF | IOLBF | IOFBF.

(** The part of [s] up to and including its last line feed, and the rest. *)
Fixpoint split_last_lf (s : string) : string * string :=
  match s with
  | EmptyString => ("", "")
  | String c rest =>
      let (flushed, kept) := split_last_lf rest in
      if Ascii.eqb c (ascii_of_nat 10) then (String c flushed, kept)
      else match flushed with
           | EmptyString => ("", String c kept)
           | _ => (String c flushed, kept)
           end
  end.

(** [stdio_put mode buf s]: the bytes written to descriptor 1 when [s] is
    printed with [buf] pending, and the bytes left pending. *)
Definition stdio_put (mode : buffering) (buf s : string) : string * string :=
  match mode with
  | IONBF => (buf ++ s, "")
  | IOLBF => split_last_lf (buf ++ s)
  | IOFBF => ("", buf ++ s)
  end.

(** The bytes reaching descriptor 1 over a whole run with log [ev],
    starting with [buf] pending in the stdio buffer; the end of the log is
    the exit of the program, which flushes. *)
Fixpoint stdout_from (mode : buffering) (buf : string) (ev : list event)
  : string :=
  match ev with
  | [] => buf
  | EPrintf s :: rest =>
      let (out, buf') := stdio_put mode buf s in
      out ++ stdout_from mode buf' rest
  | EWrite fd data _ :: rest =>
      if fd =? 1 then data ++ stdout_from mode buf rest
      else stdout_from mode buf rest
  | _ :: rest => stdout_from mode buf rest
  end.

Definition stdout_bytes (mode : buffering) (ev : list event) : string :=
  stdout_from mode "" ev.

(* ================================================================== *)
(** ** The shapes of runs

    The vocabulary in which the runs of the program are described: the
    calls of a poll, of an activation, of a request, of a relay, of a whole
    invocation. *)

Open Scope list_scope.

(** The outcome of a run of the wait loop that may use [budget] polls:
    every poll but the last found no channel, the result is what the last
    poll found, and a failure has used the whole budget. *)
Definition verdict (budget : nat) (polls : list (Z * option Z)) (result : Z)
  : Prop :=
  exists front last,
    polls = front ++ [last]
    /\ Forall (fun p => ready (snd p) = 0) front
    /\ result = ready (snd last)
    /\ (List.length polls <= budget)%nat
    /\ (result = 0 -> List.length polls = budget).

(** How the marker came to exist: at the primary location, or at the
    fallback after the primary location was refused. *)
Inductive marker_attempt (pid : Z) : list event -> string -> Z -> Prop :=
| at_primary (fd : Z) :
    fd <> -1 ->
    marker_attempt pid [ECreat (primary_marker pid) MODE_0660 fd]
                   (primary_marker pid) fd
| at_fallback (fd : Z) :
    fd <> -1 ->
    marker_attempt pid [ECreat (primary_marker pid) MODE_0660 (-1);
                        ECreat (fallback_marker pid) MODE_0660 fd]
                   (fallback_marker pid) fd.

(** The calls of a run of the Activator: either both locations were
    refused and nothing else happened, or the marker was created, its
    descriptor closed, the signal sent, the wait loop run and the marker
    unlinked. *)
Definition activation (pid : Z) (ev : list event) (result : Z) : Prop :=
  (ev = [ECreat (primary_marker pid) MODE_0660 (-1);
         ECreat (fallback_marker pid) MODE_0660 (-1)] /\ result = 0)
  \/ (exists pre marker fd cr kr polls ur,
        marker_attempt pid pre marker fd
        /\ ev = pre ++ EClose fd cr :: EKill pid SIGQUIT kr
                    :: poll_events pid polls ++ [EUnlink marker ur]
        /\ verdict 10 polls result).

(** The buffer [write_command] hands over for field [i]. *)
Definition field (argc : Z) (argv : list string) (i : Z) : string :=
  let arg := if i <? argc then argv_at argv i else "" in
  take (Z.of_nat (strlen (cstr arg)) + 1) (cstr arg).

(** The five writes of a request, with the results of the calls. *)
Definition request_events (fd argc : Z) (argv : list string) (rs : list Z)
  : list event :=
  [EWrite fd (take 2 (cstr "1")) (nth 0 rs 0);
   EWrite fd (field argc argv 0) (nth 1 rs 0);
   EWrite fd (field argc argv 1) (nth 2 rs 0);
   EWrite fd (field argc argv 2) (nth 3 rs 0);
   EWrite fd (field argc argv 3) (nth 4 rs 0)].

(** The calls of the relay for received chunks: each chunk is read, then
    written to descriptor 1.  A chunk comes with the result of its write. *)
Definition relay_events (fd : Z) (chunks : list (string * Z)) : list event :=
  flat_map (fun c => [ERead fd BUF_SIZE (Some (fst c)); EWrite 1 (fst c) (snd c)])
           chunks.

(** The texts the program prints. *)
Definition usage_text : string :=
  ("Usage: jattach <pid> <cmd> <args> ..." ++ LF)%string.
Definition activation_diagnostic : string :=
  ("Could not start attach mechanism" ++ LF)%string.
Definition connect_diagnostic : string :=
  ("Could not connect to socket" ++ LF)%string.
Definition banner : string := ("Connected to remove JVM" ++ LF)%string.

(** The calls that locate the channel: one [stat], and a run of the
    Activator when it found no channel. *)
Definition locate (pid : Z) (ev : list event) (found : bool) : Prop :=
  exists r0,
    (ready r0 <> 0 /\ ev = [EStat (socket_path pid) r0] /\ found = true)
    \/ (ready r0 = 0
        /\ exists act started,
             activation pid act started
             /\ ev = EStat (socket_path pid) r0 :: act
             /\ found = negb (started =? 0)).

(** The calls of [connect_socket] and the descriptor it returns. *)
Definition connection (pid : Z) (ev : list event) (fd : Z) : Prop :=
  (fd = -1
   /\ (ev = [ESocket PF_UNIX SOCK_STREAM 0 (-1)]
       \/ exists fd0 cr,
            ev = [ESocket PF_UNIX SOCK_STREAM 0 fd0;
                  EConnect fd0 AF_UNIX (socket_path pid) (-1);
                  EClose fd0 cr]))
  \/ (fd <> -1
      /\ exists r, r <> -1
           /\ ev = [ESocket PF_UNIX SOCK_STREAM 0 fd;
                    EConnect fd AF_UNIX (socket_path pid) r]).

(** The calls of [main] once connected, and its answer: the banner, the
    request, the relay, and then either the closing calls and exit status
    0, or nothing when the relay is still receiving data after [fuel]
    reads. *)
Definition session (fuel : nat) (fd argc : Z) (argv : list string)
           (ev : list event) (res : option Z) : Prop :=
  exists rs chunks fin,
    ev = EPrintf banner :: request_events fd argc argv rs
           ++ relay_events fd chunks ++ fin
    /\ Forall (fun c => fst c <> ""%string) chunks
    /\ ((exists r cr,
           fin = [ERead fd BUF_SIZE r; EClose fd cr; EPrintf LF]
           /\ ssize r <= 0 /\ res = Some 0
           /\ (List.length chunks < fuel)%nat)
        \/ (fin = [] /\ res = None /\ List.length chunks = fuel)).

(** The three ways a well-formed invocation proceeds. *)
Definition invocation (fuel : nat) (argv : list string) (ev : list event)
           (res : option Z) : Prop :=
  let pid := atoi (argv_at argv 1) in
  exists loc found,
    locate pid loc found
    /\ ((found = false /\ ev = loc ++ [EPrintf activation_diagnostic]
         /\ res = Some 1)
        \/ (found = true
            /\ exists conn fd,
                 connection pid conn fd
                 /\ ((fd = -1 /\ ev = loc ++ conn ++ [EPrintf connect_diagnostic]
                      /\ res = Some 1)
                     \/ (fd <> -1
                         /\ exists sess,
                              session fuel fd (Z.of_nat (List.length argv) - 2)
                                      (skipn 2 argv) sess res
                              /\ ev = loc ++ conn ++ sess)))).

(** Quiet calls: those that neither print, nor read, nor write, nor
    connect. *)
Definition quiet_event (e : event) : bool :=
  match e with
  | EConnect _ _ _ _ | EWrite _ _ _ | ERead _ _ _ | EPrintf _ => false
  | _ => true
  end.

Definition quiet (ev : list event) : bool := forallb quiet_event ev.

(** Whether some [read] failed. *)
Definition read_failed (ev : list event) : bool :=
  existsb (fun e => match e with ERead _ _ None => true | _ => false end) ev.

(** The one-byte string holding a null byte. *)
Definition nul : string := String NUL EmptyString.

(** An initial state: environment [w], nothing logged yet. *)
Definition boot {W : Type} (w : W) : state W := {| os := w; log := [] |}.

(** The kind of a call, whatever its arguments and result. *)
Inductive kind : Type :=
| CStat | CCreat | CClose | CKill | CSleep | CUnlink
| CSocket | CConnect | CWrite | CRead | CPrintf.

Definition kind_of (e : event) : kind :=
  match e with
  | EStat _ _ => CStat
  | ECreat _ _ _ => CCreat
  | EClose _ _ => CClose
  | EKill _ _ _ => CKill
  | ESleep _ _ => CSleep
  | EUnlink _ _ => CUnlink
  | ESocket _ _ _ _ => CSocket
  | EConnect _ _ _ _ => CConnect
  | EWrite _ _ _ => CWrite
  | ERead _ _ _ => CRead
  | EPrintf _ => CPrintf
  end.

(** [only allowed ev]: every call of the log is of an allowed kind. *)
Definition only (allowed : kind -> bool) (ev : list event) : bool :=
  forallb (fun e => allowed (kind_of e)) ev.

(** The calls of the wait loop and of the cleanup that follows it. *)
Definition waiting (k : kind) : bool :=
  match k with
  | CSleep | CStat | CUnlink => true
  | _ => false
  end.

(** The calls of the Activator. *)
Definition activating (k : kind) : bool :=
  match k with
  | CCreat | CClose | CKill | CSleep | CStat | CUnlink => true
  | _ => false
  end.

(** The calls that connect, talk to the peer and report. *)
Definition talking (k : kind) : bool :=
  match k with
  | CSocket | CConnect | CClose | CWrite | CRead | CPrintf => true
  | _ => false
  end.

(** Everything but transfers of data on a descriptor. *)
Definition no_transfer (k : kind) : bool :=
  match k with
  | CWrite | CRead => false
  | _ => true
  end.

(** The descriptors obtained from [socket] (successfully) and the
    descriptors given to [close], in order. *)
Fixpoint opened (ev : list event) : list Z :=
  match ev with
  | [] => []
  | ESocket _ _ _ r :: rest =>
      if r =? -1 then opened rest else r :: opened rest
  | _ :: rest => opened rest
  end.

Fixpoint closed (ev : list event) : list Z :=
  match ev with
  | [] => []
  | EClose fd _ :: rest => fd :: closed rest
  | _ :: rest => closed rest
  end.

(** Whether some [write] failed. *)
Definition write_failed (ev : list event) : bool :=
  existsb (fun e => match e with EWrite _ _ r => r =? -1 | _ => false end) ev.

(** The life of the activation marker, as far as a log shows it: the
    marker created, the signal sent, the marker unlinked. *)
Inductive mark : Type :=
| Created (path : string)
| Signalled (pid sig : Z)
| Unlinked (path : string).

Fixpoint lifecycle (ev : list event) : list mark :=
  match ev with
  | [] => []
  | ECreat path _ r :: rest =>
      if r =? -1 then lifecycle rest else Created path :: lifecycle rest
  | EKill pid sig _ :: rest => Signalled pid sig :: lifecycle rest
  | EUnlink path _ :: rest => Unlinked path :: lifecycle rest
  | _ :: rest => lifecycle rest
  end.

(** The stages of that life for target [pid]: nothing yet; the marker
    created, at one of the two locations; then [SIGQUIT] sent to [pid];
    then that marker unlinked. *)
Definition stage (pid : Z) (l : list mark) : Prop :=
  l = []
  \/ exists marker,
       (marker = primary_marker pid \/ marker = fallback_marker pid)
       /\ (l = [Created marker]
           \/ l = [Created marker; Signalled pid SIGQUIT]
           \/ l = [Created marker; Signalled pid SIGQUIT; Unlinked marker]).

(** The life is over: no marker was ever created, or the one created was
    unlinked. *)
Definition settled (pid : Z) (l : list mark) : Prop :=
  l = []
  \/ exists marker,
       (marker = primary_marker pid \/ marker = fallback_marker pid)
       /\ l = [Created marker; Signalled pid SIGQUIT; Unlinked marker].

Section Peer.

Context {W : Type} {env : OS W}.

(** The peer delivers [chunks], one per [read], each of 1 to [BUF_SIZE]
    bytes, then closes: the next [read] returns 0.  The relay's own writes
    to descriptor 1 happen in between. *)
Inductive peer_sends (fd : Z) : W -> list string -> Prop :=
| sends_close (w : W) :
    fst (os_read fd BUF_SIZE w) = Some "" ->
    peer_sends fd w []
| sends_chunk (w : W) (c : string) (rest : list string) :
    fst (os_read fd BUF_SIZE w) = Some c ->
    0 < Z.of_nat (String.length c) <= BUF_SIZE ->
    peer_sends fd (snd (os_write 1 c (snd (os_read fd BUF_SIZE w)))) rest ->
    peer_sends fd w (c :: rest).

End Peer.

(* ================================================================== *)
(** ** A simulated environment

    A small file system, a set of live processes, a target that creates
    files while the program sleeps, and a peer whose answers to [read] are
    scripted.  It is used to run the program on concrete inputs. *)

Module Sim.

Record world : Type := mkWorld {
  files : list (string * Z);             (* path, st_mode *)
  creatable : list string;               (* where creat succeeds *)
  procs : list Z;                        (* processes a signal reaches *)
  schedule : list (nat * (string * Z));  (* file created during n-th sleep *)
  slept : nat;
  inbound : list (option string)         (* answers of read; then end of stream *)
}.

Fixpoint lookup (path : string) (fs : list (string * Z)) : option Z :=
  match fs with
  | [] => None
  | (p, m) :: rest => if String.eqb p path then Some m else lookup path rest
  end.

Fixpoint remove (path : string) (fs : list (string * Z)) : list (string * Z) :=
  match fs with
  | [] => []
  | (p, m) :: rest =>
      if String.eqb p path then remove path rest else (p, m) :: remove path rest
  end.

Definition mem_string (p : string) (l : list string) : bool :=
  existsb (String.eqb p) l.

Definition with_files (w : world) (fs : list (string * Z)) : world :=
  {| files := fs; creatable := creatable w; procs := procs w;
     schedule := schedule w; slept := slept w; inbound := inbound w |}.

Definition stat (path : string) (w : world) : option Z * world :=
  (lookup path (files w), w).

Definition creat (path : string) (mode : Z) (w : world) : Z * world :=
  if mem_string path (creatable w)
  then (3, with_files w ((path, S_IFREG + mode) :: remove path (files w)))
  else (-1, w).

Definition close (fd : Z) (w : world) : Z * world := (0, w).

Definition kill (pid sig : Z) (w : world) : Z * world :=
  (if existsb (Z.eqb pid) (procs w) then 0 else -1, w).

Definition sleep (seconds : Z) (w : world) : Z * world :=
  let now := (slept w + Z.to_nat seconds)%nat in
  let due := filter (fun e => Nat.ltb (slept w) (fst e) && Nat.leb (fst e) now)
                    (schedule w) in
  (0, {| files := map snd due ++ files w; creatable := creatable w;
         procs := procs w; schedule := schedule w; slept := now;
         inbound := inbound w |}).

Definition unlink (path : string) (w : world) : Z * world :=
  match lookup path (files w) with
  | Some _ => (0, with_files w (remove path (files w)))
  | None => (-1, w)
  end.

Definition socket (domain type protocol : Z) (w : world) : Z * world := (3, w).

Definition connect (fd family : Z) (path : string) (w : world) : Z * world :=
  (match lookup path (files w) with
   | Some m => if S_ISSOCK m then 0 else -1
   | None => -1
   end, w).

Definition write (fd : Z) (buf : string) (w : world) : Z * world :=
  (Z.of_nat (String.length buf), w).

Definition read (fd count : Z) (w : world) : option string * world :=
  match inbound w with
  | [] => (Some "", w)
  | r :: rest =>
      (r, {| files := files w; creatable := creatable w; procs := procs w;
             schedule := schedule w; slept := slept w; inbound := rest |})
  end.

#[global] Instance sim_os : OS world := {
  os_stat := stat;
  os_creat := creat;
  os_close := close;
  os_kill := kill;
  os_sleep := sleep;
  os_unlink := unlink;
  os_socket := socket;
  os_connect := connect;
  os_write := write;
  os_read := read
}.

(** A socket owned by the target, mode [srw-rw----]. *)
Definition socket_mode : Z := S_IFSOCK + MODE_0660.

(** Target 1234 is alive and already listens; the peer answers in two
    chunks and closes. *)
Definition listening : world :=
  {| files := [("/tmp/.java_pid1234", socket_mode)];
     creatable := ["/tmp/.attach_pid1234"]; procs := [1234];
     schedule := []; slept := 0%nat;
     inbound := [Some "Full thread"; Some " dump"] |}.

(** Target 1234 listens, and the first [read] fails. *)
Definition broken_pipe : world :=
  {| files := [("/tmp/.java_pid1234", socket_mode)];
     creatable := ["/tmp/.attach_pid1234"]; procs := [1234];
     schedule := []; slept := 0%nat;
     inbound := [None] |}.

(** No process 1234: the signal cannot be delivered and no channel ever
    appears.  The marker can be created in [/tmp] only. *)
Definition no_process : world :=
  {| files := []; creatable := ["/tmp/.attach_pid1234"]; procs := [];
     schedule := []; slept := 0%nat; inbound := [] |}.

(** Process 1234 is alive but ignores the signal. *)
Definition deaf_process : world :=
  {| files := []; creatable := ["/tmp/.attach_pid1234"]; procs := [1234];
     schedule := []; slept := 0%nat; inbound := [] |}.

(** Target 1234 opens its channel during the third sleep. *)
Definition third_poll : world :=
  {| files := [];
     creatable := ["/proc/1234/cwd/.attach_pid1234"; "/tmp/.attach_pid1234"];
     procs := [1234];
     schedule := [(3%nat, ("/tmp/.java_pid1234", socket_mode))];
     slept := 0%nat; inbound := [Some "ok"] |}.

(** A regular file sits at the channel path of target 1234. *)
Definition wrong_kind : world :=
  {| files := [("/tmp/.java_pid1234", S_IFREG + MODE_0660)];
     creatable := []; procs := [1234];
     schedule := []; slept := 0%nat; inbound := [] |}.

(** Nothing at the channel path of target 1234. *)
Definition absent : world :=
  {| files := []; creatable := []; procs := [1234];
     schedule := []; slept := 0%nat; inbound := [] |}.


End Sim.

(** The command line of the scenarios. *)
Definition threaddump_1234 : list string :=
  ["jattach"; "1234"; "threaddump"]%string.


(* ================================================================== *)
(** ** Strings *)

Open Scope string_scope.

Lemma append_nil_r (s : string) : s ++ "" = s.
Proof. induction s as [|c s IH]; simpl; [reflexivity | now rewrite IH]. Qed.

Lemma append_assoc (a b c : string) : (a ++ b) ++ c = a ++ (b ++ c).
Proof. induction a as [|x a IH]; simpl; [reflexivity | now rewrite IH]. Qed.

Lemma substring_whole (s : string) : substring 0 (String.length s) s = s.
Proof. induction s as [|c s IH]; simpl; [reflexivity | now rewrite IH]. Qed.

Lemma take_length (s : string) : take (Z.of_nat (String.length s)) s = s.
Proof. unfold take. rewrite Nat2Z.id. apply substring_whole. Qed.

Lemma length_cstr (s : string) :
  String.length (cstr s) = S (String.length s).
Proof. unfold cstr. induction s as [|c s IH]; simpl; [reflexivity | now rewrite IH]. Qed.

Lemma strlen_cstr (s : string) :
  nul_free s = true -> strlen (cstr s) = String.length s.
Proof.
  unfold cstr. induction s as [|c s IH]; simpl; intros Hs.
  - reflexivity.
  - apply andb_true_iff in Hs. destruct Hs as [Hc Hs].
    destruct (Ascii.eqb c NUL); [discriminate Hc | now rewrite IH].
Qed.

(** [write(fd, arg, strlen(arg) + 1)] hands over the characters of [arg]
    and its terminator. *)
Lemma take_cstr (s : string) :
  nul_free s = true -> take (Z.of_nat (strlen (cstr s)) + 1) (cstr s) = cstr s.
Proof.
  intros Hs. rewrite (strlen_cstr s Hs).
  replace (Z.of_nat (String.length s) + 1)
    with (Z.of_nat (String.length (cstr s)))
    by (rewrite length_cstr; lia).
  apply take_length.
Qed.

Lemma bytes_app (a b : list string) :
  bytes (a ++ b)%list = bytes a ++ bytes b.
Proof.
  unfold bytes. induction a as [|x a IH]; simpl; [reflexivity|].
  rewrite IH. symmetry. apply append_assoc.
Qed.

(* ================================================================== *)
(** ** Observations distribute over concatenation of logs *)

Open Scope list_scope.
Open Scope Z_scope.

Ltac by_event_induction a :=
  induction a as [|[ | | | | | | | | | | ] a IH]; intros; simpl;
  try reflexivity; try (rewrite IH; reflexivity).

Lemma stats_app (a b : list event) : stats (a ++ b) = stats a ++ stats b.
Proof. by_event_induction a. Qed.

Lemma printed_app (a b : list event) : printed (a ++ b) = printed a ++ printed b.
Proof. by_event_induction a. Qed.

Lemma unlinked_app (a b : list event) :
  unlinked (a ++ b) = unlinked a ++ unlinked b.
Proof. by_event_induction a. Qed.


Lemma created_app (a b : list event) : created (a ++ b) = created a ++ created b.
Proof.
  by_event_induction a.
  destruct (r =? -1); simpl; rewrite IH; reflexivity.
Qed.

Lemma writes_to_app (fd : Z) (a b : list event) :
  writes_to fd (a ++ b) = writes_to fd a ++ writes_to fd b.
Proof.
  by_event_induction a.
  destruct (fd0 =? fd); simpl; rewrite IH; reflexivity.
Qed.

Lemma reads_from_app (fd : Z) (a b : list event) :
  reads_from fd (a ++ b) = reads_from fd a ++ reads_from fd b.
Proof.
  by_event_induction a.
  destruct r; [destruct (fd0 =? fd)|]; simpl; rewrite IH; reflexivity.
Qed.

Lemma connected_app (a b : list event) :
  connected (a ++ b) = connected a || connected b.
Proof.
  by_event_induction a.
  rewrite IH. apply orb_assoc.
Qed.

(** The polls are the only [stat] calls of the wait loop. *)
Lemma stats_poll_events (pid : Z) (polls : list (Z * option Z)) :
  stats (poll_events pid polls) = map snd polls.
Proof.
  induction polls as [|p polls IH]; simpl; [reflexivity | now rewrite IH].
Qed.

Lemma created_poll_events (pid : Z) (polls : list (Z * option Z)) :
  created (poll_events pid polls) = [].
Proof. induction polls as [|p polls IH]; simpl; auto. Qed.

Lemma unlinked_poll_events (pid : Z) (polls : list (Z * option Z)) :
  unlinked (poll_events pid polls) = [].
Proof. induction polls as [|p polls IH]; simpl; auto. Qed.

Lemma signals_poll_events (pid : Z) (polls : list (Z * option Z)) :
  signals (poll_events pid polls) = [].
Proof. induction polls as [|p polls IH]; simpl; auto. Qed.

(** In an activation that created its marker, the [stat] calls are the
    polls of the wait loop. *)
Lemma stats_of_activation (pid : Z) (pre : list event) (marker : string)
      (fd cr kr : Z) (polls : list (Z * option Z)) (ur : Z) :
  marker_attempt pid pre marker fd ->
  stats (pre ++ EClose fd cr :: EKill pid SIGQUIT kr
             :: poll_events pid polls ++ [EUnlink marker ur])
  = map snd polls.
Proof.
  intros Hm. rewrite stats_app.
  replace (stats pre) with (@nil (option Z)) by (destruct Hm; reflexivity).
  cbn [app stats]. rewrite stats_app, stats_poll_events. cbn [stats].
  apply app_nil_r.
Qed.


(* ================================================================== *)
(** ** The Channel Locator and the Activator, in any environment *)

Section Activation.

Context {W : Type} {env : OS W}.

Lemma check_socket_run (pid : Z) (s : state W) :
  check_socket pid s =
    (Some (ready (fst (os_stat (socket_path pid) (os s)))),
     {| os := snd (os_stat (socket_path pid) (os s));
        log := log s ++
               [EStat (socket_path pid) (fst (os_stat (socket_path pid) (os s)))] |}).
Proof.
  unfold check_socket, bind, sys_stat, call, ret, socket_path.
  destruct (os_stat _ (os s)) as [r w]. reflexivity.
Qed.

Lemma wait_loop_run (fuel : nat) :
  forall (pid retry : Z) (s : state W),
    0 <= retry < 10 ->
    (Z.to_nat (10 - retry) <= fuel)%nat ->
    exists polls result s',
      start_attach_mechanism_loop fuel pid retry s = (Some result, s')
      /\ log s' = log s ++ poll_events pid polls
      /\ verdict (Z.to_nat (10 - retry)) polls result.
Proof.
  induction fuel as [|fuel IH]; intros pid retry s Hr Hf; [lia|].
  cbn [start_attach_mechanism_loop]. unfold bind at 1. unfold sys_sleep, call.
  destruct (os_sleep 1 (os s)) as [sr w1] eqn:Esleep.
  unfold bind at 1. rewrite check_socket_run. cbn [os log].
  destruct (os_stat (socket_path pid) w1) as [st w2] eqn:Estat. cbn [fst snd].
  destruct ((ready st =? 0) && (retry + 1 <? 10)) eqn:Econd.
  - apply andb_true_iff in Econd. destruct Econd as [Hz Hlt].
    apply Z.eqb_eq in Hz. apply Z.ltb_lt in Hlt.
    destruct (IH pid (retry + 1)
                {| os := w2;
                   log := (log s ++ [ESleep 1 sr]) ++ [EStat (socket_path pid) st] |})
      as (polls & result & s' & Hrun & Hlog & front & last & Hp & Hfront & Hres & Hlen & Hfail);
      [lia | lia |].
    exists ((sr, st) :: polls), result, s'. split; [exact Hrun|]. split.
    + rewrite Hlog. cbn [log]. simpl. rewrite <- !app_assoc. reflexivity.
    + exists ((sr, st) :: front), last. subst polls.
      change (List.length ((sr, st) :: front ++ [last]))
        with (S (List.length (front ++ [last]))).
      split; [reflexivity|]. split; [constructor; [exact Hz | exact Hfront]|].
      split; [exact Hres|]. split; [lia|].
      intros H0. specialize (Hfail H0). lia.
  - exists [(sr, st)], (ready st). eexists. split; [reflexivity|]. split.
    + cbn [log]. simpl. rewrite <- !app_assoc. reflexivity.
    + exists [], (sr, st).
      change (List.length [(sr, st)]) with 1%nat.
      split; [reflexivity|]. split; [constructor|].
      split; [reflexivity|]. split; [lia|].
      intros H0. rewrite H0 in Econd. rewrite Z.eqb_refl in Econd.
      apply Z.ltb_ge in Econd. lia.
Qed.



Lemma activate_run (n : nat) (pid : Z) (path : string) (fd : Z) (s : state W) :
  exists cr kr polls ur result s',
    bind (sys_close fd) (fun _ =>
      bind (sys_kill pid SIGQUIT) (fun _ =>
        bind (start_attach_mechanism_loop (10 + n) pid 0) (fun result =>
          bind (sys_unlink path) (fun _ => ret result)))) s
    = (Some result, s')
    /\ log s' = log s ++ EClose fd cr :: EKill pid SIGQUIT kr
                    :: poll_events pid polls ++ [EUnlink path ur]
    /\ verdict 10 polls result.
Proof.
  unfold bind at 1. unfold sys_close, call.
  destruct (os_close fd (os s)) as [cr w1].
  unfold bind at 1. unfold sys_kill, call. cbn [os log].
  destruct (os_kill pid SIGQUIT w1) as [kr w2].
  unfold bind at 1.
  destruct (wait_loop_run (10 + n) pid 0
              {| os := w2; log := (log s ++ [EClose fd cr]) ++ [EKill pid SIGQUIT kr] |})
    as (polls & result & s1 & Hrun & Hlog & Hv); [lia | simpl; lia |].
  rewrite Hrun. unfold bind, sys_unlink, call, ret.
  destruct (os_unlink path (os s1)) as [ur w3].
  exists cr, kr, polls, ur, result. eexists. split; [reflexivity|]. split.
  - cbn [log]. rewrite Hlog. cbn [log]. rewrite <- !app_assoc. reflexivity.
  - exact Hv.
Qed.

(** Every run of the Activator with a budget of at least ten iterations
    returns, and its calls are an [activation]. *)
Lemma activator_run (n : nat) (pid : Z) (s : state W) :
  exists result s' ev,
    start_attach_mechanism (10 + n) pid s = (Some result, s')
    /\ log s' = log s ++ ev
    /\ activation pid ev result.
Proof.
  unfold start_attach_mechanism.
  unfold bind at 1. unfold sys_creat at 1, call.
  fold (primary_marker pid). fold (fallback_marker pid).
  destruct (os_creat (primary_marker pid) MODE_0660 (os s)) as [fd1 w1].
  destruct (fd1 =? -1) eqn:E1.
  - apply Z.eqb_eq in E1. subst fd1.
    unfold bind at 1. unfold sys_creat at 1, call. cbn [os log].
    destruct (os_creat (fallback_marker pid) MODE_0660 w1) as [fd2 w2].
    destruct (fd2 =? -1) eqn:E2.
    + apply Z.eqb_eq in E2. subst fd2.
      exists 0. eexists. eexists. split; [reflexivity|]. split.
      * cbn [log]. rewrite <- app_assoc. reflexivity.
      * left. split; reflexivity.
    + apply Z.eqb_neq in E2.
      destruct (activate_run n pid (fallback_marker pid) fd2
                  {| os := w2;
                     log := (log s ++ [ECreat (primary_marker pid) MODE_0660 (-1)])
                              ++ [ECreat (fallback_marker pid) MODE_0660 fd2] |})
        as (cr & kr & polls & ur & result & s' & Hrun & Hlog & Hv).
      exists result, s'. eexists. split; [exact Hrun|]. split.
      * rewrite Hlog. cbn [log]. rewrite <- !app_assoc. reflexivity.
      * right. exists [ECreat (primary_marker pid) MODE_0660 (-1);
                       ECreat (fallback_marker pid) MODE_0660 fd2],
                 (fallback_marker pid), fd2, cr, kr, polls, ur.
        split; [constructor; exact E2|]. split; [reflexivity | exact Hv].
  - apply Z.eqb_neq in E1.
    destruct (activate_run n pid (primary_marker pid) fd1
                {| os := w1;
                   log := log s ++ [ECreat (primary_marker pid) MODE_0660 fd1] |})
      as (cr & kr & polls & ur & result & s' & Hrun & Hlog & Hv).
    exists result, s'. eexists. split; [exact Hrun|]. split.
    + rewrite Hlog. cbn [log]. rewrite <- !app_assoc. reflexivity.
    + right. exists [ECreat (primary_marker pid) MODE_0660 fd1],
               (primary_marker pid), fd1, cr, kr, polls, ur.
      split; [constructor; exact E1|]. split; [reflexivity | exact Hv].
Qed.

End Activation.

(* ================================================================== *)
(** ** The Session Client and the Response Relay, in any environment *)




Section Session.

Context {W : Type} {env : OS W}.


Lemma connect_socket_run (pid : Z) (s : state W) :
  exists fd s' ev,
    connect_socket pid s = (Some fd, s')
    /\ log s' = log s ++ ev
    /\ ((fd = -1 /\ connected ev = false
         /\ (ev = [ESocket PF_UNIX SOCK_STREAM 0 (-1)]
             \/ exists fd0 cr,
                  ev = [ESocket PF_UNIX SOCK_STREAM 0 fd0;
                        EConnect fd0 AF_UNIX (socket_path pid) (-1);
                        EClose fd0 cr]))
        \/ (fd <> -1 /\ connected ev = true
            /\ exists r, r <> -1
                 /\ ev = [ESocket PF_UNIX SOCK_STREAM 0 fd;
                          EConnect fd AF_UNIX (socket_path pid) r])).
Proof.
  unfold connect_socket. unfold bind at 1. unfold sys_socket, call.
  destruct (os_socket PF_UNIX SOCK_STREAM 0 (os s)) as [fd0 w1].
  destruct (fd0 =? -1) eqn:E0.
  - apply Z.eqb_eq in E0. subst fd0. exists (-1). eexists. eexists.
    split; [reflexivity|]. split; [reflexivity|].
    left. split; [reflexivity|]. split; [reflexivity|]. left. reflexivity.
  - apply Z.eqb_neq in E0. fold (socket_path pid).
    unfold bind at 1. unfold sys_connect, call. cbn [os log].
    destruct (os_connect fd0 AF_UNIX (socket_path pid) w1) as [r w2].
    destruct (r =? -1) eqn:E1.
    + apply Z.eqb_eq in E1. subst r.
      unfold bind, sys_close, call, ret. cbn [os log].
      destruct (os_close fd0 w2) as [cr w3].
      exists (-1). eexists. eexists. split; [reflexivity|]. split.
      * cbn [log]. rewrite <- !app_assoc. reflexivity.
      * left. split; [reflexivity|]. split; [reflexivity|].
        right. exists fd0, cr. reflexivity.
    + exists fd0. eexists. eexists. split; [reflexivity|]. split.
      * cbn [log]. rewrite <- !app_assoc. reflexivity.
      * right. split; [exact E0|]. split.
        -- simpl. rewrite E1. reflexivity.
        -- exists r. split; [apply Z.eqb_neq; exact E1 | reflexivity].
Qed.

(** [write_command] always returns, after exactly five writes. *)
Lemma write_command_run (fd argc : Z) (argv : list string) (s : state W) :
  exists rs s',
    write_command fd argc argv s = (Some tt, s')
    /\ log s' = log s ++ request_events fd argc argv rs.
Proof.
  unfold write_command, for_each, request_events, field.
  unfold bind, sys_write, call, ret.
  destruct (os_write fd (take 2 (cstr "1")) (os s)) as [r0 w0]. cbn [os log].
  match goal with |- context [os_write fd ?b w0] =>
    destruct (os_write fd b w0) as [r1 w1] end. cbn [os log].
  match goal with |- context [os_write fd ?b w1] =>
    destruct (os_write fd b w1) as [r2 w2] end. cbn [os log].
  match goal with |- context [os_write fd ?b w2] =>
    destruct (os_write fd b w2) as [r3 w3] end. cbn [os log].
  match goal with |- context [os_write fd ?b w3] =>
    destruct (os_write fd b w3) as [r4 w4] end. cbn [os log].
  exists [r0; r1; r2; r3; r4]. eexists. split; [reflexivity|].
  cbn [log nth]. rewrite <- !app_assoc. reflexivity.
Qed.

(** Every run of the relay: chunks are read and forwarded one by one; the
    run returns at the first [read] that yields no data (end of stream or
    error), and stops short only when every one of its [fuel] reads yielded
    data. *)
Lemma relay_run (fuel : nat) :
  forall (fd : Z) (s : state W),
  exists chunks fin res s',
    read_response fuel fd s = (res, s')
    /\ log s' = log s ++ relay_events fd chunks ++ fin
    /\ Forall (fun c => fst c <> "") chunks
    /\ ((exists r, fin = [ERead fd BUF_SIZE r] /\ ssize r <= 0 /\ res = Some tt
                   /\ (List.length chunks < fuel)%nat)
        \/ (fin = [] /\ res = None /\ List.length chunks = fuel)).
Proof.
  induction fuel as [|fuel IH]; intros fd s.
  - exists [], [], None, s. split; [reflexivity|]. split.
    + simpl. rewrite app_nil_r. reflexivity.
    + split; [constructor|]. right. repeat split.
  - cbn [read_response]. unfold bind at 1. unfold sys_read, call.
    destruct (os_read fd BUF_SIZE (os s)) as [r w1].
    destruct (ssize r >? 0) eqn:Epos.
    + destruct r as [data|]; [|discriminate Epos].
      cbn [buffer ssize] in *.
      unfold bind at 1. unfold sys_write, call. cbn [os log].
      rewrite !take_length.
      destruct (os_write 1 data w1) as [wr w2].
      destruct (IH fd {| os := w2;
                         log := (log s ++ [ERead fd BUF_SIZE (Some data)])
                                  ++ [EWrite 1 data wr] |})
        as (chunks & fin & res & s' & Hrun & Hlog & Hne & Hend).
      exists ((data, wr) :: chunks), fin, res, s'.
      split; [exact Hrun|]. split.
      * rewrite Hlog. cbn [log]. simpl. rewrite <- !app_assoc. reflexivity.
      * split.
        -- constructor; [|exact Hne]. cbn [fst]. intros ->.
           discriminate Epos.
        -- destruct Hend as [(r & Hfin & Hr & Hres & Hlen) | (Hfin & Hres & Hlen)].
           ++ left. exists r. cbn [List.length]. repeat split; try assumption. lia.
           ++ right. cbn [List.length]. repeat split; try assumption. lia.
    + exists [], [ERead fd BUF_SIZE r], (Some tt). eexists.
      split; [reflexivity|]. split; [reflexivity|]. split; [constructor|].
      left. exists r. repeat split.
      * rewrite Z.gtb_ltb in Epos. apply Z.ltb_ge in Epos. lia.
      * simpl. lia.
Qed.

End Session.

(* ================================================================== *)
(** ** The Orchestrator, in any environment *)





Section Orchestrator.

Context {W : Type} {env : OS W}.

Lemma connection_run (pid : Z) (s : state W) :
  exists fd s' ev,
    connect_socket pid s = (Some fd, s')
    /\ log s' = log s ++ ev
    /\ connection pid ev fd.
Proof.
  destruct (connect_socket_run pid s)
    as (fd & s' & ev & Hrun & Hlog & [(Hfd & _ & Hev) | (Hfd & _ & Hev)]);
    exists fd, s', ev; (split; [exact Hrun|]); (split; [exact Hlog|]);
    [left | right]; split; assumption.
Qed.

Lemma session_run (n : nat) (fd argc : Z) (argv : list string) (s : state W) :
  exists res s' ev,
    bind (printf banner) (fun _ =>
      bind (write_command fd argc argv) (fun _ =>
        bind (read_response n fd) (fun _ =>
          bind (sys_close fd) (fun _ =>
            bind (printf LF) (fun _ => ret 0))))) s = (res, s')
    /\ log s' = log s ++ ev
    /\ exists rs chunks fin,
         ev = EPrintf banner :: request_events fd argc argv rs
                ++ relay_events fd chunks ++ fin
         /\ Forall (fun c => fst c <> ""%string) chunks
         /\ ((exists r cr,
                fin = [ERead fd BUF_SIZE r; EClose fd cr; EPrintf LF]
                /\ ssize r <= 0 /\ res = Some 0
                /\ (List.length chunks < n)%nat)
             \/ (fin = [] /\ res = None /\ List.length chunks = n)).
Proof.
  unfold bind at 1. unfold printf at 1.
  unfold bind at 1.
  destruct (write_command_run fd argc argv
              {| os := os s; log := log s ++ [EPrintf banner] |})
    as (rs & s1 & Hw & Hlog1).
  rewrite Hw. unfold bind at 1.
  destruct (relay_run n fd s1)
    as (chunks & fin & res & s2 & Hr & Hlog2 & Hne & Hend).
  rewrite Hr.
  destruct Hend as [(r & Hfin & Hr0 & Hres & Hlen) | (Hfin & Hres & Hlen)];
    subst fin res.
  - unfold bind, sys_close, call, printf, ret.
    destruct (os_close fd (os s2)) as [cr w3]. cbn [os log].
    exists (Some 0). eexists. eexists. split; [reflexivity|]. split.
    + rewrite Hlog2, Hlog1. cbn [log]. rewrite <- ?app_assoc. reflexivity.
    + exists rs, chunks, [ERead fd BUF_SIZE r; EClose fd cr; EPrintf LF].
      split; [simpl; rewrite <- ?app_assoc; reflexivity|].
      split; [exact Hne|]. left. exists r, cr. repeat split; assumption.
  - exists None, s2. eexists. split; [reflexivity|]. split.
    + rewrite Hlog2, Hlog1. cbn [log]. rewrite <- ?app_assoc. reflexivity.
    + exists rs, chunks, []. split; [reflexivity|].
      split; [exact Hne|]. right. repeat split; assumption.
Qed.

(** Every run of [main] on at least three arguments, with a budget of at
    least ten iterations per loop, is an [invocation]. *)
Lemma main_run (n : nat) (argv : list string) (s : state W) :
  3 <= Z.of_nat (List.length argv) ->
  exists res s' ev,
    main (10 + n) (Z.of_nat (List.length argv)) argv s = (res, s')
    /\ log s' = log s ++ ev
    /\ invocation (10 + n) argv ev res.
Proof.
  intros Hargc. unfold main.
  destruct (Z.of_nat (List.length argv) <? 3) eqn:E3;
    [apply Z.ltb_lt in E3; lia|].
  set (pid := atoi (argv_at argv 1)).
  unfold bind at 1. rewrite check_socket_run.
  destruct (os_stat (socket_path pid) (os s)) as [r0 w0]. cbn [fst snd].
  assert (Hconn : forall (s1 : state W) (loc : list event),
             log s1 = log s ++ loc ->
             locate pid loc true ->
             exists res s' ev,
               bind (connect_socket pid) (fun fd =>
                 if fd =? -1
                 then bind (printf connect_diagnostic) (fun _ => ret 1)
                 else
                   bind (printf banner) (fun _ =>
                     bind (write_command fd (Z.of_nat (List.length argv) - 2)
                                         (skipn 2 argv)) (fun _ =>
                       bind (read_response (10 + n) fd) (fun _ =>
                         bind (sys_close fd) (fun _ =>
                           bind (printf LF) (fun _ => ret 0)))))) s1 = (res, s')
               /\ log s' = log s ++ ev
               /\ invocation (10 + n) argv ev res).
  { intros s1 loc Hlog1 Hloc.
    unfold bind at 1.
    destruct (connection_run pid s1) as (fd & s2 & conn & Hc & Hlog2 & Hconn).
    rewrite Hc. destruct (fd =? -1) eqn:Efd.
    - apply Z.eqb_eq in Efd. unfold bind, printf, ret.
      exists (Some 1). eexists. eexists. split; [reflexivity|]. split.
      + cbn [log]. rewrite Hlog2, Hlog1. rewrite <- ?app_assoc. reflexivity.
      + exists loc, true. split; [exact Hloc|]. right. split; [reflexivity|].
        exists conn, fd. split; [exact Hconn|]. left.
        repeat split; assumption.
    - apply Z.eqb_neq in Efd.
      destruct (session_run (10 + n) fd (Z.of_nat (List.length argv) - 2)
                            (skipn 2 argv) s2)
        as (res & s3 & sess & Hs & Hlog3 & Hsess).
      exists res, s3. eexists. split; [exact Hs|]. split.
      + rewrite Hlog3, Hlog2, Hlog1. rewrite <- ?app_assoc. reflexivity.
      + exists loc, true. split; [exact Hloc|]. right. split; [reflexivity|].
        exists conn, fd. split; [exact Hconn|]. right. split; [exact Efd|].
        exists sess. split; [exact Hsess | reflexivity]. }
  unfold bind at 1.
  destruct (ready r0 =? 0) eqn:Er.
  - apply Z.eqb_eq in Er. unfold bind at 1.
    destruct (activator_run n pid
                {| os := w0; log := log s ++ [EStat (socket_path pid) r0] |})
      as (started & s1 & act & Hact & Hlog1 & Hshape).
    rewrite Hact. unfold ret at 1.
    assert (Hloc : locate pid (EStat (socket_path pid) r0 :: act)
                          (negb (started =? 0))).
    { exists r0. right. split; [exact Er|]. exists act, started.
      repeat split. exact Hshape. }
    destruct (started =? 0) eqn:Es.
    + unfold bind, printf, ret. exists (Some 1). eexists. eexists.
      split; [reflexivity|]. split.
      * cbn [log]. rewrite Hlog1. cbn [log]. rewrite <- ?app_assoc. reflexivity.
      * exists (EStat (socket_path pid) r0 :: act), false.
        split; [exact Hloc|]. left. repeat split.
    + apply (Hconn s1 (EStat (socket_path pid) r0 :: act)).
      * rewrite Hlog1. cbn [log]. rewrite <- ?app_assoc. reflexivity.
      * exact Hloc.
  - apply Z.eqb_neq in Er. unfold ret at 1.
    apply (Hconn {| os := w0; log := log s ++ [EStat (socket_path pid) r0] |}
                 [EStat (socket_path pid) r0]).
    + reflexivity.
    + exists r0. left. repeat split. exact Er.
Qed.

End Orchestrator.

(* ================================================================== *)
(** ** Quiet calls

    The calls that locate and activate the channel are quiet. *)




Lemma quiet_app (a b : list event) : quiet (a ++ b) = quiet a && quiet b.
Proof. apply forallb_app. Qed.

Lemma read_failed_app (a b : list event) :
  read_failed (a ++ b) = read_failed a || read_failed b.
Proof. apply existsb_app. Qed.

Lemma quiet_poll_events (pid : Z) (polls : list (Z * option Z)) :
  quiet (poll_events pid polls) = true.
Proof. induction polls as [|p polls IH]; simpl; auto. Qed.

Lemma quiet_silent (ev : list event) :
  quiet ev = true ->
  printed ev = [] /\ connected ev = false /\ read_failed ev = false
  /\ (forall fd, writes_to fd ev = []) /\ (forall fd, reads_from fd ev = []).
Proof.
  induction ev as [|e ev IH]; simpl; intros Hq.
  - repeat split.
  - apply andb_true_iff in Hq. destruct Hq as [He Hq].
    destruct (IH Hq) as (Hp & Hc & Hr & Hw & Hd).
    destruct e; try discriminate He; simpl; repeat split; auto.
Qed.

Lemma quiet_stdout (mode : buffering) (ev rest : list event) :
  quiet ev = true ->
  forall buf, stdout_from mode buf (ev ++ rest) = stdout_from mode buf rest.
Proof.
  induction ev as [|e ev IH]; simpl; intros Hq buf.
  - reflexivity.
  - apply andb_true_iff in Hq. destruct Hq as [He Hq].
    destruct e; try discriminate He; apply IH; exact Hq.
Qed.

Lemma quiet_activation (pid : Z) (ev : list event) (result : Z) :
  activation pid ev result -> quiet ev = true.
Proof.
  intros [[-> _] | (pre & marker & fd & cr & kr & polls & ur & Hm & -> & _)].
  - reflexivity.
  - rewrite quiet_app.
    replace (quiet pre) with true by (destruct Hm; reflexivity).
    simpl. rewrite quiet_app, quiet_poll_events. reflexivity.
Qed.

Lemma quiet_locate (pid : Z) (ev : list event) (found : bool) :
  locate pid ev found -> quiet ev = true.
Proof.
  intros (r0 & [(_ & -> & _) | (_ & act & started & Hact & -> & _)]).
  - reflexivity.
  - simpl. exact (quiet_activation pid act started Hact).
Qed.

(** The request and the relay print nothing, and no [read] of the relay's
    forwarded chunks has failed. *)
Lemma printed_request (fd argc : Z) (argv : list string) (rs : list Z) :
  printed (request_events fd argc argv rs) = [].
Proof. reflexivity. Qed.

Lemma printed_relay (fd : Z) (chunks : list (string * Z)) :
  printed (relay_events fd chunks) = [].
Proof. induction chunks as [|c chunks IH]; simpl; auto. Qed.

Lemma read_failed_relay (fd : Z) (chunks : list (string * Z)) :
  read_failed (relay_events fd chunks) = false.
Proof. induction chunks as [|c chunks IH]; simpl; auto. Qed.

Lemma connected_relay (fd : Z) (chunks : list (string * Z)) :
  connected (relay_events fd chunks) = false.
Proof. induction chunks as [|c chunks IH]; simpl; auto. Qed.

Lemma writes_to_relay (fd : Z) (chunks : list (string * Z)) :
  writes_to 1 (relay_events fd chunks) = map fst chunks.
Proof.
  induction chunks as [|c chunks IH]; simpl; [reflexivity | now rewrite IH].
Qed.

Lemma reads_from_relay (fd : Z) (chunks : list (string * Z)) :
  reads_from fd (relay_events fd chunks) = map fst chunks.
Proof.
  induction chunks as [|c chunks IH]; simpl; [reflexivity|].
  rewrite Z.eqb_refl, IH. reflexivity.
Qed.

Lemma connection_facts (pid : Z) (ev : list event) (fd : Z) :
  connection pid ev fd ->
  printed ev = [] /\ read_failed ev = false
  /\ (forall fd', writes_to fd' ev = [])
  /\ connected ev = negb (fd =? -1).
Proof.
  intros [(-> & [-> | (fd0 & cr & ->)]) | (Hfd & r & Hr & ->)];
    simpl; repeat split.
  apply Z.eqb_neq in Hfd, Hr. rewrite Hfd, Hr. reflexivity.
Qed.

(** What a whole invocation printed, whether it connected, whether a read
    failed: read off the three ways it can proceed. *)
Lemma invocation_facts (fuel : nat) (argv : list string) (ev : list event)
      (res : option Z) :
  invocation fuel argv ev res ->
  (connected ev = false /\ res = Some 1 /\ read_failed ev = false
   /\ (printed ev = [activation_diagnostic] \/ printed ev = [connect_diagnostic]))
  \/ (connected ev = true /\ res = Some 0 /\ printed ev = [banner; LF])
  \/ (connected ev = true /\ res = None /\ printed ev = [banner]
      /\ read_failed ev = false
      /\ List.length (writes_to 1 ev) >= fuel)%nat.
Proof.
  intros (loc & found & Hloc & Hcases).
  destruct (quiet_silent loc (quiet_locate _ _ _ Hloc))
    as (Hlp & Hlc & Hlr & Hlw & _).
  destruct Hcases as [(_ & -> & ->) | (_ & conn & fd & Hconn & Hcases)].
  - left. rewrite connected_app, read_failed_app, printed_app, Hlp, Hlc, Hlr.
    simpl. repeat split. left. reflexivity.
  - destruct (connection_facts _ _ _ Hconn) as (Hcp & Hcr & Hcw & Hcc).
    destruct Hcases as [(-> & -> & ->) | (Hfd & sess & Hsess & ->)].
    + left. rewrite !connected_app, !read_failed_app, !printed_app.
      rewrite Hlp, Hlc, Hlr, Hcp, Hcr, Hcc. simpl. repeat split.
      right. reflexivity.
    + right. apply Z.eqb_neq in Hfd.
      destruct Hsess as (rs & chunks & fin & -> & Hne & Hend).
      rewrite !connected_app, !printed_app, Hlp, Hlc, Hcp, Hcc, Hfd.
      destruct Hend as [(r & cr & -> & Hr & -> & Hlen) | (-> & -> & Hlen)].
      * left. split; [reflexivity|]. split; [reflexivity|].
        simpl. rewrite !printed_app, printed_relay. reflexivity.
      * right. split; [reflexivity|]. split; [reflexivity|]. split.
        { simpl. rewrite !printed_app, printed_relay. reflexivity. }
        split.
        { rewrite !read_failed_app, Hlr, Hcr. simpl.
          rewrite read_failed_app, read_failed_relay. reflexivity. }
        rewrite !writes_to_app, Hlw, Hcw. cbn [app].
        change (EPrintf banner :: request_events fd
                  (Z.of_nat (List.length argv) - 2) (skipn 2 argv) rs
                  ++ relay_events fd chunks ++ [])
          with ((EPrintf banner :: request_events fd
                  (Z.of_nat (List.length argv) - 2) (skipn 2 argv) rs)
                  ++ relay_events fd chunks ++ []).
        rewrite !writes_to_app, writes_to_relay, !length_app, length_map.
        lia.
Qed.

(* ================================================================== *)
(** ** The properties of the specification *)



Lemma nul_free_nth (args : list string) (i : nat) :
  forallb nul_free args = true -> nul_free (nth i args ""%string) = true.
Proof.
  revert i. induction args as [|a args IH]; intros i Hall.
  - destruct i; reflexivity.
  - simpl in Hall. apply andb_true_iff in Hall. destruct Hall as [Ha Hall].
    destruct i; simpl; [exact Ha | apply IH; exact Hall].
Qed.

(** Field [i + 1] of a request for [cmd :: args]: argument [i] if it was
    supplied, the empty string if not, with its terminator. *)
Lemma field_arg (cmd : string) (args : list string) (i : nat) :
  forallb nul_free args = true ->
  field (Z.of_nat (List.length (cmd :: args))) (cmd :: args) (Z.of_nat (S i))
  = cstr (nth i args ""%string).
Proof.
  intros Hall. unfold field, argv_at. rewrite Nat2Z.id. cbn [nth].
  destruct (Z.of_nat (S i) <? Z.of_nat (List.length (cmd :: args))) eqn:E.
  - apply take_cstr, nul_free_nth, Hall.
  - apply Z.ltb_ge in E. cbn [List.length] in E.
    rewrite (nth_overflow args ""%string) by lia. reflexivity.
Qed.

Section Claims.

Context {W : Type} {env : OS W}.

(** C4.  For every command and every number k of arguments, 0 <= k <= 3,
    the request that [main] has [write_command] send is the byte '1' and a
    null byte, then four null-terminated fields in the order command, arg1,
    arg2, arg3, a field that was not supplied being the empty string, that
    is a single null byte; the version and each field are one [write] call
    each, five in all, whatever the calls return. *)
Theorem request_is_version_then_four_fields
        (fd : Z) (prog pid cmd : string) (args : list string) (s : state W) :
  (List.length args <= 3)%nat ->
  nul_free cmd = true ->
  forallb nul_free args = true ->
  let argv := prog :: pid :: cmd :: args in
  exists r0 r1 r2 r3 r4 s',
    write_command fd (Z.of_nat (List.length argv) - 2) (skipn 2 argv) s
    = (Some tt, s')
    /\ log s' = log s ++ [EWrite fd ("1" ++ nul) r0;
                          EWrite fd (cmd ++ nul) r1;
                          EWrite fd (nth 0 args "" ++ nul) r2;
                          EWrite fd (nth 1 args "" ++ nul) r3;
                          EWrite fd (nth 2 args "" ++ nul) r4]%string
    /\ (forall i, (List.length args <= i)%nat ->
                  (nth i args "" ++ nul)%string = nul).
Proof.
  intros Hk Hcmd Hargs argv.
  replace (Z.of_nat (List.length argv) - 2)
    with (Z.of_nat (List.length (cmd :: args)))
    by (unfold argv; cbn [List.length]; lia).
  change (skipn 2 argv) with (cmd :: args).
  destruct (write_command_run fd (Z.of_nat (List.length (cmd :: args)))
                              (cmd :: args) s) as (rs & s' & Hrun & Hlog).
  exists (nth 0 rs 0), (nth 1 rs 0), (nth 2 rs 0), (nth 3 rs 0), (nth 4 rs 0), s'.
  split; [exact Hrun|]. split.
  - rewrite Hlog. unfold request_events.
    pose proof (field_arg cmd args 0 Hargs) as F1.
    pose proof (field_arg cmd args 1 Hargs) as F2.
    pose proof (field_arg cmd args 2 Hargs) as F3.
    change (Z.of_nat 1) with 1 in F1. change (Z.of_nat 2) with 2 in F2.
    change (Z.of_nat 3) with 3 in F3. rewrite F1, F2, F3.
    replace (field (Z.of_nat (List.length (cmd :: args))) (cmd :: args) 0)
      with (cstr cmd).
    + reflexivity.
    + unfold field, argv_at. cbn [List.length]. 
      replace (0 <? Z.of_nat (S (List.length args))) with true
        by (symmetry; apply Z.ltb_lt; lia).
      cbn [Z.to_nat nth]. symmetry. apply take_cstr, Hcmd.
  - intros i Hi. rewrite (nth_overflow args ""%string) by exact Hi. reflexivity.
Qed.

(** C3, as amended.  For an invocation with command [threaddump] and no
    further argument, the request consists of five writes on the
    connection, and its bytes are '1', a null byte, "threaddump", and four
    null bytes: the terminator of the command and three empty fields. *)
Theorem threaddump_request_bytes (fd : Z) (prog pid : string) (s : state W) :
  let argv := [prog; pid; "threaddump"%string] in
  exists s' ev,
    write_command fd (Z.of_nat (List.length argv) - 2) (skipn 2 argv) s
    = (Some tt, s')
    /\ log s' = log s ++ ev
    /\ List.length ev = 5%nat
    /\ writes_to fd ev
       = ["1" ++ nul; "threaddump" ++ nul; nul; nul; nul]%string
    /\ bytes (writes_to fd ev)
       = ("1" ++ nul ++ "threaddump" ++ nul ++ nul ++ nul ++ nul)%string.
Proof.
  intros argv.
  destruct (write_command_run fd (Z.of_nat (List.length argv) - 2)
                              (skipn 2 argv) s) as (rs & s' & Hrun & Hlog).
  exists s', (request_events fd (Z.of_nat (List.length argv) - 2)
                             (skipn 2 argv) rs).
  split; [exact Hrun|]. split; [exact Hlog|]. split; [reflexivity|].
  unfold request_events. cbn [writes_to]. rewrite Z.eqb_refl.
  split; reflexivity.
Qed.

(** C5.  The wait loop of the Activator, started as the Activator starts
    it, returns after at least one and at most ten polls.  Each poll is a
    [sleep(1)] followed by one [stat] of the channel path.  Every poll
    before the last found no channel, so the loop stops at the first poll
    that finds it: a channel first seen at the n-th poll gives exactly n
    polls.  The result is what the last poll found, and the result 0
    (failure) is returned after exactly ten polls.  In a run of the
    Activator that created its marker, the polls of this loop are the calls
    between the signal and the [unlink], and the only [stat] calls. *)
Theorem wait_loop_polls_at_most_ten_times (n : nat) (pid : Z) (s : state W) :
  (exists polls front last result s',
      start_attach_mechanism_loop (10 + n) pid 0 s = (Some result, s')
      /\ log s' = log s ++ poll_events pid polls
      /\ polls = front ++ [last]
      /\ (List.length polls <= 10)%nat
      /\ Forall (fun p => ready (snd p) = 0) front
      /\ result = ready (snd last)
      /\ (result = 0 <-> Forall (fun p => ready (snd p) = 0) polls)
      /\ (result = 0 -> List.length polls = 10%nat))
  /\ (exists result s' ev,
         start_attach_mechanism (10 + n) pid s = (Some result, s')
         /\ log s' = log s ++ ev
         /\ (List.length (stats ev) <= 10)%nat
         /\ (created ev <> [] ->
             exists before kr polls marker ur,
               ev = before ++ EKill pid SIGQUIT kr
                      :: poll_events pid polls ++ [EUnlink marker ur]
               /\ stats ev = map snd polls
               /\ (1 <= List.length polls <= 10)%nat
               /\ result = ready (last (stats ev) None)
               /\ (result = 0 -> List.length polls = 10%nat))).
Proof.
  split.
  - destruct (wait_loop_run (10 + n) pid 0 s)
      as (polls & result & s' & Hrun & Hlog & front & last & Hp & Hfront & Hres & Hlen & Hfail);
      [lia | simpl; lia |].
    exists polls, front, last, result, s'.
    change (Z.to_nat (10 - 0)) with 10%nat in *.
    repeat (split; [assumption|]). split; [|exact Hfail].
    subst polls. rewrite Forall_app. split.
    + intros H0. split; [exact Hfront|]. constructor; [congruence | constructor].
    + intros [_ Hl]. inversion Hl; subst. congruence.
  - destruct (activator_run n pid s) as (result & s' & ev & Hrun & Hlog & Hact).
    exists result, s', ev. split; [exact Hrun|]. split; [exact Hlog|].
    destruct Hact as [[-> ->] | (pre & marker & fd & cr & kr & polls & ur & Hm & -> & Hv)].
    + split; [simpl; lia|]. intros H. exfalso. apply H. reflexivity.
    + rewrite !(stats_of_activation pid pre marker fd cr kr polls ur Hm).
      rewrite length_map.
      destruct Hv as (front & last & -> & Hfront & Hres & Hlen & Hfail).
      split; [exact Hlen|]. intros _.
      exists (pre ++ [EClose fd cr]), kr, (front ++ [last]), marker, ur.
      split; [rewrite <- app_assoc; reflexivity|].
      split; [reflexivity|]. split.
      * split; [rewrite length_app; simpl; lia | exact Hlen].
      * split; [|exact Hfail].
        rewrite map_app. cbn [map]. rewrite last_last. exact Hres.
Qed.

(** C6.  Every run of the Activator returns.  Either [creat] was refused
    at both locations, and then nothing was created and nothing is
    unlinked; or exactly one [creat] succeeded, at the primary or at the
    fallback location, and exactly one [unlink] is issued, on the path of
    the marker that was created, as the last call before the Activator
    returns, whether it returns success or failure. *)
Theorem marker_is_created_once_and_unlinked_once
        (n : nat) (pid : Z) (s : state W) :
  exists result s' ev,
    start_attach_mechanism (10 + n) pid s = (Some result, s')
    /\ log s' = log s ++ ev
    /\ ((created ev = [] /\ unlinked ev = [] /\ result = 0)
        \/ exists marker before ur,
             (marker = primary_marker pid \/ marker = fallback_marker pid)
             /\ created ev = [marker]
             /\ unlinked ev = [marker]
             /\ ev = before ++ [EUnlink marker ur]
             /\ (result = 0 \/ result = 1)).
Proof.
  destruct (activator_run n pid s) as (result & s' & ev & Hrun & Hlog & Hact).
  exists result, s', ev. split; [exact Hrun|]. split; [exact Hlog|].
  destruct Hact as [[-> ->] | (pre & marker & fd & cr & kr & polls & ur & Hm & -> & Hv)].
  - left. repeat split.
  - right.
    exists marker, (pre ++ EClose fd cr :: EKill pid SIGQUIT kr :: poll_events pid polls), ur.
    assert (Hpre : created pre = [marker] /\ unlinked pre = []
                   /\ (marker = primary_marker pid \/ marker = fallback_marker pid)).
    { destruct Hm as [fd Hfd | fd Hfd]; apply Z.eqb_neq in Hfd; simpl;
        rewrite Hfd; repeat split; auto. }
    destruct Hpre as (Hc & Hu & Hwhere).
    split; [exact Hwhere|].
    rewrite created_app, unlinked_app, Hc, Hu. cbn [created unlinked].
    rewrite created_app, unlinked_app, created_poll_events, unlinked_poll_events.
    split; [reflexivity|]. split; [reflexivity|]. split.
    + rewrite <- app_assoc. reflexivity.
    + destruct Hv as (front & last & _ & _ & -> & _). unfold ready.
      destruct (snd last) as [m|]; [destruct (S_ISSOCK m)|]; auto.
Qed.

(** C7, as amended.  The Channel Locator issues one [stat] of the channel
    path and returns 1 when the path exists and is a socket.  It returns
    the same value 0 when the path is absent and when the path exists but
    is not a socket: its result does not tell the two apart. *)
Theorem check_socket_answers_zero_or_one (pid : Z) (s : state W) :
  exists r result s',
    check_socket pid s = (Some result, s')
    /\ log s' = log s ++ [EStat (socket_path pid) r]
    /\ (r = None -> result = 0)
    /\ (forall m, r = Some m -> S_ISSOCK m = false -> result = 0)
    /\ (forall m, r = Some m -> S_ISSOCK m = true -> result = 1).
Proof.
  rewrite check_socket_run.
  destruct (os_stat (socket_path pid) (os s)) as [r w]. cbn [fst snd].
  exists r, (ready r). eexists. split; [reflexivity|]. split; [reflexivity|].
  repeat split.
  - intros ->. reflexivity.
  - intros m -> Hm. simpl. rewrite Hm. reflexivity.
  - intros m -> Hm. simpl. rewrite Hm. reflexivity.
Qed.

(** C2, as amended.  When the activation signal cannot be delivered
    ([kill] returns -1) the Activator does not notice: it runs the wait
    loop all the same, with at least one and at most ten polls, and its
    result is what the last poll found.  It returns failure only after ten
    polls none of which found the channel, exactly as it does when the
    signal was delivered and the target ignored it. *)
Theorem failed_signal_is_not_noticed
        (n : nat) (pid : Z) (s : state W) (ev : list event) :
  log (snd (start_attach_mechanism (10 + n) pid s)) = log s ++ ev ->
  In (pid, SIGQUIT, -1) (signals ev) ->
  (1 <= List.length (stats ev) <= 10)%nat
  /\ exists result,
       fst (start_attach_mechanism (10 + n) pid s) = Some result
       /\ result = ready (last (stats ev) None)
       /\ (result = 0 ->
           List.length (stats ev) = 10%nat
           /\ Forall (fun r => ready r = 0) (stats ev)).
Proof.
  destruct (activator_run n pid s) as (result & s' & ev0 & Hrun & Hlog & Hact).
  rewrite Hrun. cbn [fst snd]. rewrite Hlog. intros Hev Hsig.
  apply app_inv_head in Hev. subst ev0.
  destruct Hact as [[-> ->] | (pre & marker & fd & cr & kr & polls & ur & Hm & -> & Hv)].
  - simpl in Hsig. contradiction.
  - rewrite !(stats_of_activation pid pre marker fd cr kr polls ur Hm).
    rewrite length_map.
    destruct Hv as (front & last & -> & Hfront & Hres & Hlen & Hfail).
    split.
    + rewrite length_app in *. simpl in *. lia.
    + exists result. split; [reflexivity|]. split.
      * rewrite map_app. cbn [map]. rewrite last_last. exact Hres.
      * intros H0. split; [exact (Hfail H0)|].
        rewrite map_app, Forall_app. split.
        -- rewrite Forall_map. exact Hfront.
        -- constructor; [cbn; congruence | constructor].
Qed.

(** C8.  When the peer delivers a response as any sequence of chunks and
    then closes the connection, the relay returns, having issued for each
    chunk one [read] that receives it and one [write] that hands it,
    unchanged, to descriptor 1, in the order received, and one last [read]
    that sees the end of the stream: the bytes forwarded are the
    concatenation of the chunks, none lost, repeated or moved. *)
Theorem relay_forwards_the_stream
        (fd : Z) (chunks : list string) (n : nat) (s : state W) :
  peer_sends fd (os s) chunks ->
  exists s' ev results,
    read_response (S (List.length chunks) + n) fd s = (Some tt, s')
    /\ log s' = log s ++ ev
    /\ ev = relay_events fd (combine chunks results)
              ++ [ERead fd BUF_SIZE (Some ""%string)]
    /\ List.length results = List.length chunks
    /\ writes_to 1 ev = chunks
    /\ bytes (writes_to 1 ev) = bytes chunks.
Proof.
  remember (os s) as w eqn:Hw. intros Hpeer. revert s Hw.
  induction Hpeer as [w Hread | w c rest Hread Hlen Hpeer IH]; intros s Hw; subst w.
  - cbn [List.length Nat.add read_response].
    unfold bind, sys_read, call, ret.
    destruct (os_read fd BUF_SIZE (os s)) as [r w1]. cbn [fst] in Hread. subst r.
    cbn [ssize String.length Z.of_nat Z.gtb Z.compare].
    eexists. exists [ERead fd BUF_SIZE (Some ""%string)], [].
    repeat split.
  - cbn [List.length Nat.add read_response].
    unfold bind at 1. unfold sys_read, call.
    destruct (os_read fd BUF_SIZE (os s)) as [r w1] eqn:Er.
    cbn [fst snd] in Hread, Hpeer, IH. subst r. cbn [ssize buffer].
    replace (Z.of_nat (String.length c) >? 0) with true
      by (symmetry; apply Z.gtb_lt; lia).
    unfold bind at 1. unfold sys_write, call. cbn [os log].
    rewrite !take_length.
    destruct (os_write 1 c w1) as [wr w2] eqn:Ew. cbn [snd] in IH.
    destruct (IH {| os := w2;
                    log := (log s ++ [ERead fd BUF_SIZE (Some c)])
                             ++ [EWrite 1 c wr] |} eq_refl)
      as (s' & ev & results & Hrun & Hlog & Hev & Hres & Hwrites & Hbytes).
    exists s', (ERead fd BUF_SIZE (Some c) :: EWrite 1 c wr :: ev), (wr :: results).
    split; [exact Hrun|]. split.
    + rewrite Hlog. cbn [log]. rewrite <- !app_assoc. reflexivity.
    + split; [rewrite Hev; reflexivity|].
      split; [cbn [List.length]; congruence|].
      cbn [writes_to Z.eqb Pos.eqb]. rewrite Hwrites. split; reflexivity.
Qed.

(** C1, as amended.  In every invocation that establishes the connection
    and in which every [write] succeeds, a [read] of the response that
    fails is not reported.  The failed [read] ends the relay as the end of
    the stream does: the program prints the banner and, after the relay, a
    line feed, no diagnostic, and exits with status 0.  (Nothing is said of
    a run in which a [write] fails.) *)
Theorem read_failure_is_not_reported (n : nat) (argv : list string) (w : W) :
  3 <= Z.of_nat (List.length argv) ->
  let r := run (10 + n) argv w in
  connected (log (snd r)) = true ->
  write_failed (log (snd r)) = false ->
  read_failed (log (snd r)) = true ->
  fst r = Some 0 /\ printed (log (snd r)) = [banner; LF].
Proof.
  intros Hargc r. unfold r, run.
  destruct (main_run n argv {| os := w; log := [] |} Hargc)
    as (res & s' & ev & Hrun & Hlog & Hinv).
  rewrite Hrun. cbn [fst snd]. rewrite Hlog. cbn [log app].
  intros Hconn _ Hfailed.
  destruct (invocation_facts _ _ _ _ Hinv)
    as [(Hc & _) | [(_ & Hres & Hp) | (_ & _ & _ & Hrf & _)]].
  - congruence.
  - split; assumption.
  - congruence.
Qed.


End Claims.

(* ================================================================== *)
(** ** Standard output of a completed session *)

Lemma stdout_skip (mode : buffering) (ev rest : list event) :
  printed ev = [] -> writes_to 1 ev = [] ->
  forall buf, stdout_from mode buf (ev ++ rest) = stdout_from mode buf rest.
Proof.
  induction ev as [|e ev IH]; intros Hp Hw buf; [reflexivity|].
  destruct e; simpl in *; try (apply IH; assumption).
  - destruct (fd =? 1); [discriminate Hw | apply IH; assumption].
  - discriminate Hp.
Qed.

Lemma stdout_relay (mode : buffering) (fd : Z) (chunks : list (string * Z))
      (rest : list event) (buf : string) :
  stdout_from mode buf (relay_events fd chunks ++ rest)
  = (bytes (map fst chunks) ++ stdout_from mode buf rest)%string.
Proof.
  induction chunks as [|c chunks IH]; simpl; [reflexivity|].
  rewrite IH. symmetry. apply append_assoc.
Qed.

Lemma writes_to_request_other (fd argc : Z) (argv : list string) (rs : list Z) :
  fd <> 1 -> writes_to 1 (request_events fd argc argv rs) = [].
Proof.
  intros Hfd. apply Z.eqb_neq in Hfd. unfold request_events. simpl.
  rewrite Hfd. reflexivity.
Qed.

Section Stdout.

Context {W : Type} {env : OS W}.

(** X10.  In every invocation that exits with status 0 and whose connection is
    not descriptor 1, the relayed response is the bytes written to
    descriptor 1 by [write].  On an unbuffered or line-buffered [stdout]
    the banner comes first, then the response, then the line feed; on a
    fully buffered [stdout] the response comes first and the banner and the
    line feed follow it, when the program exits. *)
Lemma stdout_of_a_session (n : nat) (argv : list string) (w : W) :
  3 <= Z.of_nat (List.length argv) ->
  let r := run (10 + n) argv w in
  let ev := log (snd r) in
  let response := bytes (writes_to 1 ev) in
  fst r = Some 0 ->
  (forall fd cr, In (EConnect fd AF_UNIX (socket_path (atoi (argv_at argv 1))) cr) ev
                 -> fd <> 1) ->
  stdout_bytes IONBF ev = (banner ++ response ++ LF)%string
  /\ stdout_bytes IOLBF ev = (banner ++ response ++ LF)%string
  /\ stdout_bytes IOFBF ev = (response ++ banner ++ LF)%string.
Proof.
  intros Hargc r ev response. unfold response, ev, r, run. clear response ev r.
  destruct (main_run n argv {| os := w; log := [] |} Hargc)
    as (res & s' & ev & Hrun & Hlog & Hinv).
  rewrite Hrun. cbn [fst snd]. rewrite Hlog. cbn [log app].
  intros Hres Hfd. subst res.
  destruct Hinv as (loc & found & Hloc & Hcases).
  destruct (quiet_silent loc (quiet_locate _ _ _ Hloc))
    as (Hlp & _ & _ & Hlw & _).
  destruct Hcases as [(_ & _ & Hno) | (_ & conn & fd & Hconn & Hcases)];
    [discriminate Hno|].
  destruct (connection_facts _ _ _ Hconn) as (Hcp & _ & Hcw & _).
  destruct Hcases as [(_ & _ & Hno) | (Hfd1 & sess & Hsess & ->)];
    [discriminate Hno|].
  assert (Hne1 : fd <> 1).
  { destruct Hconn as [(Hx & _) | (_ & cr & _ & ->)]; [contradiction|].
    apply (Hfd fd cr). apply in_or_app. right. apply in_or_app. left.
    simpl. right. left. reflexivity. }
  destruct Hsess as (rs & chunks & fin & -> & _ & Hend).
  destruct Hend as [(rd & cr & -> & _ & _ & _) | (_ & Hno & _)];
    [|discriminate Hno].
  set (req := request_events fd (Z.of_nat (List.length argv) - 2)
                             (skipn 2 argv) rs).
  assert (Hreq : writes_to 1 req = [])
    by (apply writes_to_request_other; exact Hne1).
  assert (Hresp : bytes (writes_to 1
            (loc ++ conn ++ EPrintf banner :: req ++ relay_events fd chunks
               ++ [ERead fd BUF_SIZE rd; EClose fd cr; EPrintf LF]))
          = bytes (map fst chunks)).
  { rewrite !writes_to_app, Hlw, Hcw. cbn [app writes_to].
    rewrite !writes_to_app, Hreq, writes_to_relay. cbn [app writes_to].
    rewrite app_nil_r. reflexivity. }
  rewrite Hresp. unfold stdout_bytes.
  assert (Hstep : forall mode,
             stdout_from mode ""
               (loc ++ conn ++ EPrintf banner :: req ++ relay_events fd chunks
                  ++ [ERead fd BUF_SIZE rd; EClose fd cr; EPrintf LF])
             = (let (out, buf) := stdio_put mode "" banner in
                out ++ bytes (map fst chunks)
                    ++ (let (out', buf') := stdio_put mode buf LF in
                        out' ++ buf'))%string).
  { intros mode.
    rewrite (stdout_skip mode loc _ Hlp (Hlw 1)).
    rewrite (stdout_skip mode conn _ Hcp (Hcw 1)).
    cbn [stdout_from]. destruct (stdio_put mode "" banner) as [out buf].
    rewrite (stdout_skip mode req _ (printed_request _ _ _ _) Hreq).
    rewrite stdout_relay. cbn [stdout_from].
    destruct (stdio_put mode buf LF) as [out' buf']. reflexivity. }
  rewrite !Hstep.
  change (stdio_put IONBF "" banner) with (banner, ""%string).
  change (stdio_put IOLBF "" banner) with (banner, ""%string).
  change (stdio_put IOFBF "" banner) with (""%string, banner).
  cbv iota beta.
  change (stdio_put IONBF "" LF) with (LF, ""%string).
  change (stdio_put IOLBF "" LF) with (LF, ""%string).
  change (stdio_put IOFBF banner LF) with (""%string, (banner ++ LF)%string).
  cbv iota beta. rewrite append_nil_r. repeat split.
Qed.

End Stdout.

(* ================================================================== *)
(** ** Concrete runs *)


(** C1, counterexample.  Target 1234 listens, the connection is
    established and the first [read] fails: the program prints the banner
    and a line feed, no diagnostic, and exits with status 0. *)
Lemma read_failure_exits_with_status_zero :
  let r := run 10 threaddump_1234 Sim.broken_pipe in
  connected (log (snd r)) = true
  /\ In (ERead 3 BUF_SIZE None) (log (snd r))
  /\ fst r = Some 0
  /\ printed (log (snd r)) = [banner; LF].
Proof.
  vm_compute. repeat split.
  do 9 right. left. reflexivity.
Qed.

(** C2, counterexample.  No process 1234 exists and [kill] fails: the
    Activator polls ten times all the same, and returns what it returns
    for a live process that ignores the signal. *)
Lemma activator_polls_after_failed_signal :
  let r := start_attach_mechanism 10 1234 (boot Sim.no_process) in
  let r' := start_attach_mechanism 10 1234 (boot Sim.deaf_process) in
  signals (log (snd r)) = [(1234, SIGQUIT, -1)]
  /\ List.length (stats (log (snd r))) = 10%nat
  /\ signals (log (snd r')) = [(1234, SIGQUIT, 0)]
  /\ fst r = Some 0
  /\ fst r = fst r'.
Proof. vm_compute. repeat split. Qed.

(** C3, counterexample.  Target 1234 listens; the request written on the
    connection (descriptor 3) for [threaddump] is 16 bytes long and is not
    '1', null, "threaddump" and three null bytes. *)
Lemma threaddump_request_is_not_fifteen_bytes :
  let r := run 10 threaddump_1234 Sim.listening in
  fst r = Some 0
  /\ connected (log (snd r)) = true
  /\ String.length (bytes (writes_to 3 (log (snd r)))) = 16%nat
  /\ bytes (writes_to 3 (log (snd r)))
     <> ("1" ++ nul ++ "threaddump" ++ nul ++ nul ++ nul)%string.
Proof. vm_compute. repeat split. discriminate. Qed.

(** C7, counterexample.  With nothing at the channel path and with a
    regular file there, [stat] answers differently and the Channel Locator
    returns the same value. *)
Lemma absent_and_wrong_kind_are_not_told_apart :
  let a := check_socket 1234 (boot Sim.absent) in
  let b := check_socket 1234 (boot Sim.wrong_kind) in
  stats (log (snd a)) = [None]
  /\ stats (log (snd b)) = [Some (S_IFREG + MODE_0660)]
  /\ S_ISSOCK (S_IFREG + MODE_0660) = false
  /\ fst a = Some 0
  /\ fst b = Some 0
  /\ ~ fst a <> fst b.
Proof. vm_compute. repeat split. intros H. apply H. reflexivity. Qed.

(** C9, at the failing input.  Target 1234 listens and answers
    "Full thread dump"; standard output is a file or a pipe, hence fully
    buffered.  The program exits with status 0 and the bytes reaching
    standard output are the response first, then the banner, then the line
    feed: the banner does not precede the response. *)
Theorem banner_follows_response_on_buffered_stdout :
  let r := run 10 threaddump_1234 Sim.listening in
  let ev := log (snd r) in
  fst r = Some 0
  /\ connected ev = true
  /\ bytes (reads_from 3 ev) = "Full thread dump"%string
  /\ stdout_bytes IOFBF ev = ("Full thread dump" ++ banner ++ LF)%string
  /\ stdout_bytes IOFBF ev <> (banner ++ "Full thread dump" ++ LF)%string
  /\ stdout_bytes IOLBF ev = (banner ++ "Full thread dump" ++ LF)%string.
Proof. vm_compute. repeat split. discriminate. Qed.

(** Scenario D: the channel appears during the third sleep; the Activator
    returns success after exactly three polls and the marker is gone. *)
Example channel_at_third_poll :
  let r := start_attach_mechanism 10 1234 (boot Sim.third_poll) in
  fst r = Some 1
  /\ List.length (stats (log (snd r))) = 3%nat
  /\ created (log (snd r)) = ["/proc/1234/cwd/.attach_pid1234"%string]
  /\ unlinked (log (snd r)) = ["/proc/1234/cwd/.attach_pid1234"%string]
  /\ Sim.lookup "/proc/1234/cwd/.attach_pid1234" (Sim.files (os (snd r))) = None.
Proof. vm_compute. repeat split. Qed.

(** Scenario C: one argument only is a usage error, before any call. *)
Example usage_error :
  let r := run 10 ["jattach"; "1234"]%string Sim.listening in
  fst r = Some 1 /\ log (snd r) = [EPrintf usage_text].
Proof. vm_compute. repeat split. Qed.

(** *** Instances of the theorems that have hypotheses *)

Lemma request_is_version_then_four_fields_witness :
  (List.length ["instrument"; "false"]%string <= 3)%nat
  /\ exists r0 r1 r2 r3 r4 s',
       write_command 3 3 ["load"; "instrument"; "false"]%string
                     (boot Sim.listening) = (Some tt, s')
       /\ log s' = [EWrite 3 ("1" ++ nul) r0;
                    EWrite 3 ("load" ++ nul) r1;
                    EWrite 3 ("instrument" ++ nul) r2;
                    EWrite 3 ("false" ++ nul) r3;
                    EWrite 3 nul r4]%string
       /\ (forall i, (2 <= i)%nat ->
                     (nth i ["instrument"; "false"] "" ++ nul)%string = nul).
Proof.
  split; [simpl; lia|].
  apply (request_is_version_then_four_fields
           3 "jattach" "1234" "load" ["instrument"; "false"]%string
           (boot Sim.listening)); [simpl; lia | reflexivity | reflexivity].
Defined.

Lemma failed_signal_is_not_noticed_witness :
  let r := start_attach_mechanism 10 1234 (boot Sim.no_process) in
  In (1234, SIGQUIT, -1) (signals (log (snd r)))
  /\ (1 <= List.length (stats (log (snd r))) <= 10)%nat
  /\ exists result,
       fst r = Some result
       /\ result = ready (last (stats (log (snd r))) None)
       /\ (result = 0 ->
           List.length (stats (log (snd r))) = 10%nat
           /\ Forall (fun a => ready a = 0) (stats (log (snd r)))).
Proof.
  split; [vm_compute; left; reflexivity|].
  apply (failed_signal_is_not_noticed
           0 1234 (boot Sim.no_process)
           (log (snd (start_attach_mechanism 10 1234 (boot Sim.no_process)))));
    [reflexivity | vm_compute; left; reflexivity].
Defined.

Lemma relay_forwards_the_stream_witness :
  peer_sends 3 Sim.listening ["Full thread"; " dump"]%string
  /\ exists s' ev results,
       read_response 3 3 (boot Sim.listening) = (Some tt, s')
       /\ log s' = ev
       /\ ev = relay_events 3 (combine ["Full thread"; " dump"]%string results)
                 ++ [ERead 3 BUF_SIZE (Some ""%string)]
       /\ List.length results = 2%nat
       /\ writes_to 1 ev = ["Full thread"; " dump"]%string
       /\ bytes (writes_to 1 ev) = "Full thread dump"%string.
Proof.
  assert (H : peer_sends 3 Sim.listening ["Full thread"; " dump"]%string).
  { apply sends_chunk; [reflexivity | unfold BUF_SIZE; simpl; lia |].
    apply sends_chunk; [reflexivity | unfold BUF_SIZE; simpl; lia |].
    apply sends_close. reflexivity. }
  split; [exact H|].
  apply (relay_forwards_the_stream 3 ["Full thread"; " dump"]%string 0
                                   (boot Sim.listening) H).
Defined.

Lemma read_failure_is_not_reported_witness :
  let r := run 10 threaddump_1234 Sim.broken_pipe in
  connected (log (snd r)) = true
  /\ write_failed (log (snd r)) = false
  /\ read_failed (log (snd r)) = true
  /\ fst r = Some 0 /\ printed (log (snd r)) = [banner; LF].
Proof.
  split; [reflexivity|]. split; [reflexivity|]. split; [reflexivity|].
  apply (read_failure_is_not_reported 0 threaddump_1234 Sim.broken_pipe);
    [simpl; lia | reflexivity | reflexivity | reflexivity].
Defined.


(* ================================================================== *)
(** ** Further properties of the code *)

(** *** Kinds of calls *)

Lemma only_app (allowed : kind -> bool) (a b : list event) :
  only allowed (a ++ b) = only allowed a && only allowed b.
Proof. apply forallb_app. Qed.

Lemma only_weaken (a b : kind -> bool) (ev : list event) :
  (forall k, a k = true -> b k = true) ->
  only a ev = true -> only b ev = true.
Proof.
  intros Hab. unfold only. rewrite !forallb_forall.
  intros H e He. apply Hab, H, He.
Qed.

Lemma only_poll_events (allowed : kind -> bool) (pid : Z)
      (polls : list (Z * option Z)) :
  allowed CSleep = true -> allowed CStat = true ->
  only allowed (poll_events pid polls) = true.
Proof.
  intros Hs Ht. induction polls as [|p polls IH]; simpl; [reflexivity|].
  rewrite Hs, Ht. exact IH.
Qed.

Lemma only_relay_events (allowed : kind -> bool) (fd : Z)
      (chunks : list (string * Z)) :
  allowed CRead = true -> allowed CWrite = true ->
  only allowed (relay_events fd chunks) = true.
Proof.
  intros Hr Hw. induction chunks as [|c chunks IH]; simpl; [reflexivity|].
  rewrite Hr, Hw. exact IH.
Qed.

(** A log without calls of some kind shows nothing for the observation
    of that kind. *)
Lemma only_observations (allowed : kind -> bool) (ev : list event) :
  only allowed ev = true ->
  (allowed CKill = false -> signals ev = [])
  /\ (allowed CCreat = false -> created ev = [])
  /\ (allowed CUnlink = false -> unlinked ev = [])
  /\ (allowed CStat = false -> stats ev = [])
  /\ (allowed CPrintf = false -> printed ev = [])
  /\ (allowed CSocket = false -> opened ev = [])
  /\ (allowed CClose = false -> closed ev = [])
  /\ (allowed CConnect = false -> connected ev = false)
  /\ (allowed CWrite = false -> forall fd, writes_to fd ev = [])
  /\ (allowed CRead = false -> forall fd, reads_from fd ev = []).
Proof.
  induction ev as [|e ev IH]; intros Hall.
  - repeat split.
  - simpl in Hall. apply andb_true_iff in Hall. destruct Hall as [He Hall].
    destruct (IH Hall) as (H1 & H2 & H3 & H4 & H5 & H6 & H7 & H8 & H9 & H10).
    destruct e; simpl in He |- *;
      (repeat split; intros Hk; try congruence; auto).
Qed.

Lemma activation_only (pid : Z) (ev : list event) (result : Z) :
  activation pid ev result -> only activating ev = true.
Proof.
  intros [[-> _] | (pre & marker & fd & cr & kr & polls & ur & Hm & -> & _)].
  - reflexivity.
  - rewrite only_app.
    replace (only activating pre) with true by (destruct Hm; reflexivity).
    simpl. rewrite only_app, only_poll_events by reflexivity. reflexivity.
Qed.

Lemma locate_only (pid : Z) (ev : list event) (found : bool) :
  locate pid ev found -> only activating ev = true.
Proof.
  intros (r0 & [(_ & -> & _) | (_ & act & started & Hact & -> & _)]).
  - reflexivity.
  - simpl. exact (activation_only pid act started Hact).
Qed.

Lemma connection_only (pid : Z) (ev : list event) (fd : Z) :
  connection pid ev fd -> only talking ev = true.
Proof.
  intros [(_ & [-> | (fd0 & cr & ->)]) | (_ & r & _ & ->)]; reflexivity.
Qed.

Lemma session_only (fuel : nat) (fd argc : Z) (argv : list string)
      (ev : list event) (res : option Z) :
  session fuel fd argc argv ev res -> only talking ev = true.
Proof.
  intros (rs & chunks & fin & -> & _ & Hend).
  simpl. rewrite only_app, only_relay_events by reflexivity.
  destruct Hend as [(r & cr & -> & _) | (-> & _)]; reflexivity.
Qed.

(** An invocation is a locating part, in which only the Activator's kinds
    of calls occur, followed by a part in which only the connection, the
    transfers and the printing occur. *)
Lemma invocation_parts (fuel : nat) (argv : list string) (ev : list event)
      (res : option Z) :
  invocation fuel argv ev res ->
  exists loc found rest,
    locate (atoi (argv_at argv 1)) loc found
    /\ ev = loc ++ rest
    /\ only activating loc = true
    /\ only talking rest = true.
Proof.
  intros (loc & found & Hloc & Hcases).
  exists loc, found.
  destruct Hcases as [(_ & -> & _) | (_ & conn & fd & Hconn & [(_ & -> & _) | (_ & sess & Hsess & ->)])].
  - eexists. split; [exact Hloc|]. split; [reflexivity|].
    split; [exact (locate_only _ _ _ Hloc) | reflexivity].
  - eexists. split; [exact Hloc|]. split; [reflexivity|].
    split; [exact (locate_only _ _ _ Hloc)|].
    rewrite only_app, (connection_only _ _ _ Hconn). reflexivity.
  - eexists. split; [exact Hloc|]. split; [reflexivity|].
    split; [exact (locate_only _ _ _ Hloc)|].
    rewrite only_app, (connection_only _ _ _ Hconn),
      (session_only _ _ _ _ _ _ Hsess). reflexivity.
Qed.

Lemma opened_app (a b : list event) : opened (a ++ b) = opened a ++ opened b.
Proof.
  by_event_induction a.
  destruct (r =? -1); simpl; rewrite IH; reflexivity.
Qed.

Lemma closed_app (a b : list event) : closed (a ++ b) = closed a ++ closed b.
Proof. by_event_induction a. Qed.

Lemma connection_no_transfer (pid : Z) (ev : list event) (fd : Z) :
  connection pid ev fd -> only no_transfer ev = true.
Proof.
  intros [(_ & [-> | (fd0 & cr & ->)]) | (_ & r & _ & ->)]; reflexivity.
Qed.

Lemma stdout_of_one_line (mode : buffering) (before : list event) (d : string) :
  printed before = [] -> writes_to 1 before = [] ->
  d = activation_diagnostic \/ d = connect_diagnostic ->
  stdout_bytes mode (before ++ [EPrintf d]) = d.
Proof.
  intros Hp Hw Hd. unfold stdout_bytes.
  rewrite (stdout_skip mode before _ Hp Hw).
  destruct Hd as [-> | ->]; destruct mode; reflexivity.
Qed.

Lemma field_at (argv : list string) (i : nat) :
  (i < List.length argv)%nat ->
  nul_free (nth i argv ""%string) = true ->
  field (Z.of_nat (List.length argv)) argv (Z.of_nat i)
  = cstr (nth i argv ""%string).
Proof.
  intros Hi Hn. unfold field, argv_at. rewrite Nat2Z.id.
  replace (Z.of_nat i <? Z.of_nat (List.length argv)) with true
    by (symmetry; apply Z.ltb_lt; lia).
  apply take_cstr, Hn.
Qed.

(** Two null-terminated strings followed by anything are equal as byte
    sequences only when the strings are equal and what follows is equal. *)
Lemma cstr_prefix_inj (a b x y : string) :
  nul_free a = true -> nul_free b = true ->
  (a ++ nul ++ x)%string = (b ++ nul ++ y)%string ->
  a = b /\ x = y.
Proof.
  revert b. induction a as [|c a IH]; intros [|d b] Ha Hb Heq; simpl in *.
  - injection Heq as Heq. split; [reflexivity | exact Heq].
  - exfalso. injection Heq as Hc _. subst d.
    unfold NUL in Hb. simpl in Hb. discriminate Hb.
  - exfalso. injection Heq as Hc _. subst c.
    unfold NUL in Ha. simpl in Ha. discriminate Ha.
  - injection Heq as Hc Heq. subst d.
    apply andb_true_iff in Ha, Hb. destruct Ha as [_ Ha], Hb as [_ Hb].
    destruct (IH b Ha Hb Heq) as [-> ->]. split; reflexivity.
Qed.

(** The buffers of a request, for well-formed C strings. *)
Lemma request_buffers (fd : Z) (cmd : string) (args : list string)
      (rs : list Z) :
  nul_free cmd = true -> forallb nul_free args = true ->
  writes_to fd (request_events fd (Z.of_nat (List.length (cmd :: args)))
                               (cmd :: args) rs)
  = [cstr "1"; cstr cmd; cstr (nth 0 args ""); cstr (nth 1 args "");
     cstr (nth 2 args "")]%string.
Proof.
  intros Hcmd Hargs. unfold request_events. cbn [writes_to].
  rewrite Z.eqb_refl.
  pose proof (field_arg cmd args 0 Hargs) as F1.
  pose proof (field_arg cmd args 1 Hargs) as F2.
  pose proof (field_arg cmd args 2 Hargs) as F3.
  change (Z.of_nat 1) with 1 in F1. change (Z.of_nat 2) with 2 in F2.
  change (Z.of_nat 3) with 3 in F3. rewrite F1, F2, F3.
  assert (F0 : field (Z.of_nat (List.length (cmd :: args))) (cmd :: args)
                     (Z.of_nat 0) = cstr cmd)
    by (apply (field_at (cmd :: args) 0); [simpl; lia | exact Hcmd]).
  change (Z.of_nat 0) with 0 in F0. rewrite F0.
  reflexivity.
Qed.

Lemma lifecycle_app (a b : list event) :
  lifecycle (a ++ b) = lifecycle a ++ lifecycle b.
Proof.
  by_event_induction a.
  destruct (r =? -1); simpl; rewrite IH; reflexivity.
Qed.

Lemma lifecycle_poll_events (pid : Z) (polls : list (Z * option Z)) :
  lifecycle (poll_events pid polls) = [].
Proof. induction polls as [|p polls IH]; simpl; auto. Qed.

Lemma only_lifecycle (allowed : kind -> bool) (ev : list event) :
  only allowed ev = true ->
  allowed CCreat = false -> allowed CKill = false ->
  allowed CUnlink = false ->
  lifecycle ev = [].
Proof.
  intros Hall Hc Hk Hu. induction ev as [|e ev IH]; [reflexivity|].
  simpl in Hall. apply andb_true_iff in Hall. destruct Hall as [He Hall].
  destruct e; simpl in He |- *; try congruence; auto.
Qed.

(** The initial parts of a list of three elements. *)
Lemma initial_part_of_three {A : Type} (l later : list A) (a b c : A) :
  l ++ later = [a; b; c] ->
  l = [] \/ l = [a] \/ l = [a; b] \/ l = [a; b; c].
Proof.
  intros H.
  destruct l as [|x [|y [|z [|t l]]]]; simpl in H.
  - left. reflexivity.
  - injection H as -> _. right. left. reflexivity.
  - injection H as -> -> _. right. right. left. reflexivity.
  - injection H as -> -> -> _. right. right. right. reflexivity.
  - discriminate H.
Qed.

Section Extras.

Context {W : Type} {env : OS W}.

(** X1.  With fewer than two arguments after the program name, [main] prints
    the usage text and returns 1 without any system call: the environment
    is left as it was. *)
Theorem too_few_arguments_make_no_call
        (fuel : nat) (argv : list string) (w : W) :
  (List.length argv < 3)%nat ->
  run fuel argv w = (Some 1, {| os := w; log := [EPrintf usage_text] |}).
Proof.
  intros Hlen. unfold run, main.
  replace (Z.of_nat (List.length argv) <? 3) with true
    by (symmetry; apply Z.ltb_lt; lia).
  reflexivity.
Qed.

(** X2.  When the first [stat] finds the channel, the Activator is not run: no
    marker is created, no signal is sent, the program does not sleep, and
    no further [stat] is made; the calls that follow only connect,
    transfer, close and print. *)
Theorem live_channel_skips_the_activator
        (n : nat) (argv : list string) (w : W) (r0 : option Z)
        (rest : list event) :
  3 <= Z.of_nat (List.length argv) ->
  log (snd (run (10 + n) argv w))
  = EStat (socket_path (atoi (argv_at argv 1))) r0 :: rest ->
  ready r0 <> 0 ->
  only talking rest = true
  /\ created rest = [] /\ signals rest = [] /\ unlinked rest = []
  /\ stats rest = [].
Proof.
  intros Hargc. unfold run.
  destruct (main_run n argv {| os := w; log := [] |} Hargc)
    as (res & s' & ev & Hrun & Hlog & Hinv).
  rewrite Hrun. cbn [snd]. rewrite Hlog. cbn [log app]. intros Hev Hready.
  destruct (invocation_parts _ _ _ _ Hinv)
    as (loc & found & tail & Hloc & -> & _ & Htail).
  destruct Hloc as (r1 & [(_ & -> & _) | (Hr1 & act & started & _ & -> & _)]);
    simpl in Hev; injection Hev as Hr Hrest; subst r1.
  - subst tail.
    destruct (only_observations talking rest Htail)
      as (H1 & H2 & H3 & H4 & _).
    repeat split; auto.
  - contradiction.
Qed.

(** X3.  A run that returns 1, on at least two arguments, has made no
    successful [connect].  It has printed exactly one diagnostic, as its
    last action, and this line is all that reaches standard output, in
    every buffering mode.  It has neither written nor read on any
    descriptor.  When the diagnostic is the one of the Activator, no
    socket was even requested: all the calls before the diagnostic are
    calls of the Channel Locator and of the Activator. *)
Theorem failed_run_prints_one_diagnostic
        (n : nat) (argv : list string) (w : W) :
  3 <= Z.of_nat (List.length argv) ->
  let r := run (10 + n) argv w in
  fst r = Some 1 ->
  connected (log (snd r)) = false
  /\ exists before d,
       log (snd r) = before ++ [EPrintf d]
       /\ printed before = []
       /\ only no_transfer before = true
       /\ ((d = activation_diagnostic /\ only activating before = true)
           \/ d = connect_diagnostic)
       /\ forall mode, stdout_bytes mode (log (snd r)) = d.
Proof.
  intros Hargc r. unfold r, run.
  destruct (main_run n argv {| os := w; log := [] |} Hargc)
    as (res & s' & ev & Hrun & Hlog & Hinv).
  rewrite Hrun. cbn [fst snd]. rewrite Hlog. cbn [log app]. intros Hres.
  destruct (invocation_facts _ _ _ _ Hinv)
    as [(Hnc & _) | [(_ & Hres0 & _) | (_ & Hres0 & _)]];
    [|congruence | congruence].
  split; [exact Hnc|].
  destruct Hinv as (loc & found & Hloc & Hcases).
  pose proof (locate_only _ _ _ Hloc) as Hlo.
  destruct (quiet_silent loc (quiet_locate _ _ _ Hloc))
    as (Hlp & Hlc & _ & Hlw & _).
  assert (Hlt : only no_transfer loc = true).
  { apply (only_weaken activating); [|exact Hlo]. intros []; simpl; congruence. }
  destruct Hcases as [(_ & -> & _) | (_ & conn & fd & Hconn & Hcases)].
  - exists loc, activation_diagnostic.
    split; [reflexivity|]. split; [exact Hlp|]. split; [exact Hlt|].
    split; [left; split; [reflexivity | exact Hlo]|].
    intros mode. apply stdout_of_one_line; auto.
  - destruct (connection_facts _ _ _ Hconn) as (Hcp & _ & Hcw & Hcc).
    destruct Hcases as [(-> & -> & _) | (Hfd & sess & _ & ->)].
    + exists (loc ++ conn), connect_diagnostic.
      split; [rewrite <- app_assoc; reflexivity|].
      split; [rewrite printed_app, Hlp, Hcp; reflexivity|].
      split; [rewrite only_app, Hlt, (connection_no_transfer _ _ _ Hconn);
              reflexivity|].
      split; [right; reflexivity|].
      intros mode. rewrite app_assoc. apply stdout_of_one_line.
      * rewrite printed_app, Hlp, Hcp. reflexivity.
      * rewrite writes_to_app, Hlw, Hcw. reflexivity.
      * right. reflexivity.
    + exfalso. apply Z.eqb_neq in Hfd.
      rewrite !connected_app, Hcc, Hfd in Hnc. simpl in Hnc.
      rewrite orb_true_r in Hnc. discriminate Hnc.
Qed.

(** X4.  [connect_socket] either returns the descriptor it connected, and then
    has not closed it, or returns -1; in that case either [socket] failed
    and nothing else was called, or [connect] failed and the descriptor
    [socket] had returned was closed.  The address is the channel path. *)
Theorem connect_socket_returns_or_closes (pid : Z) (s : state W) :
  exists fd s' ev,
    connect_socket pid s = (Some fd, s')
    /\ log s' = log s ++ ev
    /\ ((fd = -1 /\ ev = [ESocket PF_UNIX SOCK_STREAM 0 (-1)])
        \/ (fd = -1
            /\ exists fd0 cr,
                 fd0 <> -1
                 /\ ev = [ESocket PF_UNIX SOCK_STREAM 0 fd0;
                          EConnect fd0 AF_UNIX (socket_path pid) (-1);
                          EClose fd0 cr])
        \/ (fd <> -1
            /\ exists r,
                 r <> -1
                 /\ ev = [ESocket PF_UNIX SOCK_STREAM 0 fd;
                          EConnect fd AF_UNIX (socket_path pid) r]))
    /\ (fd = -1 -> closed ev = opened ev)
    /\ (fd <> -1 -> opened ev = [fd] /\ closed ev = []).
Proof.
  unfold connect_socket. unfold bind at 1. unfold sys_socket, call.
  destruct (os_socket PF_UNIX SOCK_STREAM 0 (os s)) as [fd0 w1].
  destruct (fd0 =? -1) eqn:E0.
  - apply Z.eqb_eq in E0. subst fd0. exists (-1). eexists. eexists.
    split; [reflexivity|]. split; [reflexivity|].
    split; [left; split; reflexivity|].
    split; [reflexivity | intros H; contradiction].
  - fold (socket_path pid).
    unfold bind at 1. unfold sys_connect, call. cbn [os log].
    destruct (os_connect fd0 AF_UNIX (socket_path pid) w1) as [r w2].
    destruct (r =? -1) eqn:E1.
    + apply Z.eqb_eq in E1. subst r.
      unfold bind, sys_close, call, ret. cbn [os log].
      destruct (os_close fd0 w2) as [cr w3].
      exists (-1). eexists. eexists. split; [reflexivity|]. split.
      * cbn [log]. rewrite <- !app_assoc. reflexivity.
      * split.
        -- right. left. split; [reflexivity|]. exists fd0, cr.
           split; [apply Z.eqb_neq; exact E0 | reflexivity].
        -- split; [|intros H; contradiction].
           intros _. simpl. rewrite E0. reflexivity.
    + exists fd0. eexists. eexists. split; [reflexivity|]. split.
      * cbn [log]. rewrite <- !app_assoc. reflexivity.
      * split.
        -- right. right. split; [apply Z.eqb_neq; exact E0|].
           exists r. split; [apply Z.eqb_neq; exact E1 | reflexivity].
        -- split; [intros ->; discriminate E0|].
           intros _. simpl. rewrite E0. split; reflexivity.
Qed.

(** X5.  The Activator tries the fallback location only after the primary one
    was refused, and returns 0 at once, with no other call, when both are
    refused.  Otherwise it closes the descriptor [creat] returned, sends
    one [SIGQUIT] to [pid], and from then on only sleeps, polls and
    unlinks: it sends no second signal and creates no second marker. *)
Theorem activator_signals_once_after_the_marker
        (n : nat) (pid : Z) (s : state W) :
  exists result s' ev,
    start_attach_mechanism (10 + n) pid s = (Some result, s')
    /\ log s' = log s ++ ev
    /\ ((result = 0
         /\ ev = [ECreat (primary_marker pid) MODE_0660 (-1);
                  ECreat (fallback_marker pid) MODE_0660 (-1)])
        \/ exists fd cr kr rest,
             fd <> -1
             /\ (ev = ECreat (primary_marker pid) MODE_0660 fd
                        :: EClose fd cr :: EKill pid SIGQUIT kr :: rest
                 \/ ev = ECreat (primary_marker pid) MODE_0660 (-1)
                           :: ECreat (fallback_marker pid) MODE_0660 fd
                           :: EClose fd cr :: EKill pid SIGQUIT kr :: rest)
             /\ only waiting rest = true
             /\ signals ev = [(pid, SIGQUIT, kr)]
             /\ closed ev = [fd]).
Proof.
  destruct (activator_run n pid s) as (result & s' & ev & Hrun & Hlog & Hact).
  exists result, s', ev. split; [exact Hrun|]. split; [exact Hlog|].
  destruct Hact as [[-> ->] | (pre & marker & fd & cr & kr & polls & ur & Hm & -> & _)].
  - left. split; reflexivity.
  - right. exists fd, cr, kr, (poll_events pid polls ++ [EUnlink marker ur]).
    assert (Hrest : only waiting (poll_events pid polls ++ [EUnlink marker ur])
                    = true).
    { rewrite only_app, only_poll_events by reflexivity. reflexivity. }
    destruct (only_observations waiting _ Hrest)
      as (Hsig & _ & _ & _ & _ & _ & Hclo & _).
    destruct Hm as [fd Hfd | fd Hfd].
    + split; [exact Hfd|]. split; [left; reflexivity|].
      split; [exact Hrest|]. simpl.
      rewrite (Hsig eq_refl), (Hclo eq_refl). split; reflexivity.
    + split; [exact Hfd|]. split; [right; reflexivity|].
      split; [exact Hrest|]. simpl.
      rewrite (Hsig eq_refl), (Hclo eq_refl). split; reflexivity.
Qed.

(** X6.  The relay, however the stream ends: it forwards each chunk it
    receives, as it is and at once, and returns at the first [read] that
    yields no data, be it the end of the stream or an error; the chunks
    received before an error have been forwarded.  It reads nothing after
    that [read], and the bytes handed to descriptor 1 are the bytes
    received.  It stops short of returning only when each of its [fuel]
    reads yielded data. *)
Theorem relay_stops_at_the_first_empty_read
        (fuel : nat) (fd : Z) (s : state W) :
  exists chunks fin res s' ev,
    read_response fuel fd s = (res, s')
    /\ log s' = log s ++ ev
    /\ ev = relay_events fd chunks ++ fin
    /\ Forall (fun c => fst c <> ""%string) chunks
    /\ ((exists r, fin = [ERead fd BUF_SIZE r] /\ ssize r <= 0
                   /\ res = Some tt)
        \/ (fin = [] /\ res = None /\ List.length chunks = fuel))
    /\ writes_to 1 ev = map fst chunks
    /\ bytes (writes_to 1 ev) = bytes (reads_from fd ev).
Proof.
  destruct (relay_run fuel fd s)
    as (chunks & fin & res & s' & Hrun & Hlog & Hne & Hend).
  exists chunks, fin, res, s', (relay_events fd chunks ++ fin).
  split; [exact Hrun|]. split; [exact Hlog|]. split; [reflexivity|].
  split; [exact Hne|].
  assert (Hfin : writes_to 1 fin = [] /\ bytes (reads_from fd fin) = ""%string).
  { destruct Hend as [(r & -> & Hr & _) | (-> & _)]; [|split; reflexivity].
    split; [reflexivity|]. destruct r as [d|]; [|reflexivity].
    simpl. rewrite Z.eqb_refl. simpl in Hr.
    destruct d; [reflexivity | simpl in Hr; lia]. }
  destruct Hfin as [Hw Hr].
  split.
  - destruct Hend as [(r & Hfin & Hr0 & Hres & _) | (Hfin & Hres & Hlen)].
    + left. exists r. repeat split; assumption.
    + right. repeat split; assumption.
  - rewrite writes_to_app, writes_to_relay, Hw, app_nil_r.
    split; [reflexivity|].
    rewrite reads_from_app, reads_from_relay, bytes_app, Hr.
    symmetry. apply append_nil_r.
Qed.

(** X7.  [write_command] sends the command and the first three arguments
    only: whatever follows the third argument on the command line is not
    sent, and the request is the same five writes. *)
Theorem arguments_after_the_third_are_dropped
        (fd : Z) (prog pid cmd a1 a2 a3 : string) (extra : list string)
        (s : state W) :
  nul_free cmd = true -> nul_free a1 = true ->
  nul_free a2 = true -> nul_free a3 = true ->
  let argv := prog :: pid :: cmd :: a1 :: a2 :: a3 :: extra in
  exists r0 r1 r2 r3 r4 s',
    write_command fd (Z.of_nat (List.length argv) - 2) (skipn 2 argv) s
    = (Some tt, s')
    /\ log s' = log s ++ [EWrite fd ("1" ++ nul) r0;
                          EWrite fd (cmd ++ nul) r1;
                          EWrite fd (a1 ++ nul) r2;
                          EWrite fd (a2 ++ nul) r3;
                          EWrite fd (a3 ++ nul) r4]%string.
Proof.
  intros Hc H1 H2 H3 argv.
  set (sent := cmd :: a1 :: a2 :: a3 :: extra).
  replace (Z.of_nat (List.length argv) - 2) with (Z.of_nat (List.length sent))
    by (unfold argv, sent; cbn [List.length]; lia).
  change (skipn 2 argv) with sent.
  destruct (write_command_run fd (Z.of_nat (List.length sent)) sent s)
    as (rs & s' & Hrun & Hlog).
  exists (nth 0 rs 0), (nth 1 rs 0), (nth 2 rs 0), (nth 3 rs 0), (nth 4 rs 0), s'.
  split; [exact Hrun|]. rewrite Hlog. unfold request_events.
  assert (F0 : field (Z.of_nat (List.length sent)) sent (Z.of_nat 0) = cstr cmd)
    by (apply (field_at sent 0); [unfold sent; simpl; lia | exact Hc]).
  assert (F1 : field (Z.of_nat (List.length sent)) sent (Z.of_nat 1) = cstr a1)
    by (apply (field_at sent 1); [unfold sent; simpl; lia | exact H1]).
  assert (F2 : field (Z.of_nat (List.length sent)) sent (Z.of_nat 2) = cstr a2)
    by (apply (field_at sent 2); [unfold sent; simpl; lia | exact H2]).
  assert (F3 : field (Z.of_nat (List.length sent)) sent (Z.of_nat 3) = cstr a3)
    by (apply (field_at sent 3); [unfold sent; simpl; lia | exact H3]).
  change (Z.of_nat 0) with 0 in F0. change (Z.of_nat 1) with 1 in F1.
  change (Z.of_nat 2) with 2 in F2. change (Z.of_nat 3) with 3 in F3.
  rewrite F0, F1, F2, F3. reflexivity.
Qed.

(** X8.  The request bytes determine the command and the three argument
    fields: two requests with the same bytes were made for the same
    command and the same first, second and third arguments (an argument
    that was not supplied counting as the empty string). *)
Theorem request_bytes_determine_the_fields
        (fd fd' : Z) (cmd cmd' : string) (args args' : list string)
        (w w' : W) :
  nul_free cmd = true -> forallb nul_free args = true ->
  nul_free cmd' = true -> forallb nul_free args' = true ->
  bytes (writes_to fd
           (log (snd (write_command fd (Z.of_nat (List.length (cmd :: args)))
                                    (cmd :: args) (boot w)))))
  = bytes (writes_to fd'
             (log (snd (write_command fd' (Z.of_nat (List.length (cmd' :: args')))
                                      (cmd' :: args') (boot w'))))) ->
  cmd = cmd'
  /\ nth 0 args ""%string = nth 0 args' ""%string
  /\ nth 1 args ""%string = nth 1 args' ""%string
  /\ nth 2 args ""%string = nth 2 args' ""%string.
Proof.
  intros Hc Ha Hc' Ha'.
  destruct (write_command_run fd (Z.of_nat (List.length (cmd :: args)))
                              (cmd :: args) (boot w))
    as (rs & s1 & Hrun1 & Hlog1).
  destruct (write_command_run fd' (Z.of_nat (List.length (cmd' :: args')))
                              (cmd' :: args') (boot w'))
    as (rs' & s2 & Hrun2 & Hlog2).
  rewrite Hrun1, Hrun2. cbn [snd]. rewrite Hlog1, Hlog2.
  cbn [boot log app].
  rewrite !request_buffers by assumption.
  unfold bytes, cstr. cbn [fold_right]. fold nul.
  rewrite !append_assoc. intros Heq.
  apply cstr_prefix_inj in Heq; [|reflexivity | reflexivity].
  destruct Heq as [_ Heq].
  apply cstr_prefix_inj in Heq; [|assumption | assumption].
  destruct Heq as [Hcmd Heq].
  apply cstr_prefix_inj in Heq; [|apply nul_free_nth; assumption ..].
  destruct Heq as [H0 Heq].
  apply cstr_prefix_inj in Heq; [|apply nul_free_nth; assumption ..].
  destruct Heq as [H1 Heq].
  apply cstr_prefix_inj in Heq; [|apply nul_free_nth; assumption ..].
  destruct Heq as [H2 _].
  repeat split; assumption.
Qed.

(** X9.  A run that returns 0 has made, after the calls of the Channel Locator
    and of the Activator, exactly these calls, in this order: [socket],
    [connect] to the channel path, the banner, the five writes of the
    request, the relay, the [read] that ended it, one [close] of the
    connected descriptor, the final line feed.  The request is complete
    before the first [read]; the connected descriptor is the only one
    obtained from [socket], and it is closed after the last [read]. *)
Theorem completed_run_is_one_session
        (n : nat) (argv : list string) (w : W) :
  3 <= Z.of_nat (List.length argv) ->
  let r := run (10 + n) argv w in
  fst r = Some 0 ->
  exists before fd cr0 rs chunks rd cr,
    log (snd r)
    = before
        ++ ESocket PF_UNIX SOCK_STREAM 0 fd
        :: EConnect fd AF_UNIX (socket_path (atoi (argv_at argv 1))) cr0
        :: EPrintf banner
        :: request_events fd (Z.of_nat (List.length argv) - 2) (skipn 2 argv) rs
        ++ relay_events fd chunks
        ++ [ERead fd BUF_SIZE rd; EClose fd cr; EPrintf LF]
    /\ only activating before = true
    /\ fd <> -1 /\ cr0 <> -1 /\ ssize rd <= 0
    /\ opened (log (snd r)) = [fd]
    /\ closed (log (snd r)) = closed before ++ [fd].
Proof.
  intros Hargc r. unfold r, run.
  destruct (main_run n argv {| os := w; log := [] |} Hargc)
    as (res & s' & ev & Hrun & Hlog & Hinv).
  rewrite Hrun. cbn [fst snd]. rewrite Hlog. cbn [log app]. intros Hres.
  destruct Hinv as (loc & found & Hloc & Hcases).
  pose proof (locate_only _ _ _ Hloc) as Hlo.
  destruct (only_observations activating loc Hlo)
    as (_ & _ & _ & _ & _ & Hopen & _).
  destruct Hcases as [(_ & _ & ->) | (_ & conn & fd & Hconn & [(_ & _ & ->) | (Hfd & sess & Hsess & ->)])];
    try discriminate Hres.
  destruct Hconn as [(Hx & _) | (_ & cr0 & Hcr0 & ->)]; [contradiction|].
  destruct Hsess as (rs & chunks & fin & -> & _ & [(rd & cr & -> & Hrd & _ & _) | (_ & -> & _)]);
    [|discriminate Hres].
  exists loc, fd, cr0, rs, chunks, rd, cr.
  split; [reflexivity|]. split; [exact Hlo|].
  split; [exact Hfd|]. split; [exact Hcr0|]. split; [exact Hrd|].
  assert (Hq : opened (relay_events fd chunks) = []
               /\ closed (relay_events fd chunks) = []).
  { destruct (only_observations
                (fun k => match k with CRead | CWrite => true | _ => false end)
                (relay_events fd chunks)
                (only_relay_events _ fd chunks eq_refl eq_refl))
      as (_ & _ & _ & _ & _ & Ho & Hc & _).
    split; [apply Ho | apply Hc]; reflexivity. }
  destruct Hq as [Hro Hrc].
  apply Z.eqb_neq in Hfd.
  split.
  - rewrite opened_app, (Hopen eq_refl). cbn [app opened]. rewrite Hfd.
    rewrite !opened_app, Hro. reflexivity.
  - rewrite closed_app. cbn [app closed].
    rewrite !closed_app, Hrc. reflexivity.
Qed.

(** X11.  At every point of every run on at least two arguments,
    wherever the run is cut, the life of the activation marker so far is
    an initial part of: one marker created, at the primary or the fallback
    location of [atoi(argv[1])]; then one [SIGQUIT] sent to
    [atoi(argv[1])], taken as it is; then that marker unlinked.  So the
    program sends at most one signal, never before the marker exists, and
    unlinks nothing but the marker it created, after the signal.  When the
    run returns, the life is over: no marker was created, or the marker
    created was unlinked. *)
Theorem marker_lifecycle_in_every_run
        (n : nat) (argv : list string) (w : W) :
  3 <= Z.of_nat (List.length argv) ->
  let r := run (10 + n) argv w in
  let pid := atoi (argv_at argv 1) in
  (forall done todo,
      log (snd r) = done ++ todo -> stage pid (lifecycle done))
  /\ ((exists status, fst r = Some status) ->
      settled pid (lifecycle (log (snd r)))).
Proof.
  intros Hargc r pid. unfold r, run. clear r.
  destruct (main_run n argv {| os := w; log := [] |} Hargc)
    as (res & s' & ev & Hrun & Hlog & Hinv).
  rewrite Hrun. cbn [fst snd]. rewrite Hlog. cbn [log app].
  assert (Hfull : settled pid (lifecycle ev)).
  { destruct (invocation_parts _ _ _ _ Hinv)
      as (loc & found & rest & Hloc & -> & _ & Hrest).
    rewrite lifecycle_app, (only_lifecycle talking rest Hrest) by reflexivity.
    rewrite app_nil_r. fold pid in Hloc.
    destruct Hloc as (r0 & [(_ & -> & _) | (_ & act & started & Hact & -> & _)]).
    - left. reflexivity.
    - cbn [lifecycle].
      destruct Hact as [[-> _] | (pre & marker & fd & cr & kr & polls & ur & Hm & -> & _)].
      + left. reflexivity.
      + right. exists marker.
        assert (Hpre : lifecycle pre = [Created marker]
                       /\ (marker = primary_marker pid
                           \/ marker = fallback_marker pid)).
        { destruct Hm as [fd Hfd | fd Hfd]; apply Z.eqb_neq in Hfd; simpl;
            rewrite Hfd; split; auto. }
        destruct Hpre as [Hpre Hwhere]. split; [exact Hwhere|].
        rewrite lifecycle_app, Hpre. cbn [app lifecycle].
        rewrite lifecycle_app, lifecycle_poll_events. reflexivity. }
  split; [|intros _; exact Hfull].
  intros done todo Hcut. rewrite Hcut, lifecycle_app in Hfull.
  destruct Hfull as [Hnil | (marker & Hwhere & Hthree)].
  - left. apply app_eq_nil in Hnil. apply Hnil.
  - destruct (initial_part_of_three _ _ _ _ _ Hthree) as [H | [H | [H | H]]].
    + left. exact H.
    + right. exists marker. split; [exact Hwhere|]. left. exact H.
    + right. exists marker. split; [exact Hwhere|]. right. left. exact H.
    + right. exists marker. split; [exact Hwhere|]. right. right. exact H.
Qed.

End Extras.

(** *** Instances of the further properties that have hypotheses *)

Lemma too_few_arguments_make_no_call_witness :
  (List.length ["jattach"; "1234"]%string < 3)%nat
  /\ run 0 ["jattach"; "1234"]%string Sim.no_process
     = (Some 1, {| os := Sim.no_process; log := [EPrintf usage_text] |}).
Proof.
  split; [simpl; lia|].
  apply (too_few_arguments_make_no_call 0 ["jattach"; "1234"]%string
                                        Sim.no_process).
  simpl; lia.
Defined.

Lemma live_channel_skips_the_activator_witness :
  let ev := log (snd (run 10 threaddump_1234 Sim.listening)) in
  ready (hd None (stats ev)) <> 0
  /\ only talking (tl ev) = true
  /\ created (tl ev) = [] /\ signals (tl ev) = [] /\ unlinked (tl ev) = []
  /\ stats (tl ev) = [].
Proof.
  split; [vm_compute; discriminate|].
  apply (live_channel_skips_the_activator
           0 threaddump_1234 Sim.listening
           (hd None (stats (log (snd (run 10 threaddump_1234 Sim.listening)))))
           (tl (log (snd (run 10 threaddump_1234 Sim.listening)))));
    [simpl; lia | reflexivity | vm_compute; discriminate].
Defined.

Lemma failed_run_prints_one_diagnostic_witness :
  let r := run 10 threaddump_1234 Sim.no_process in
  fst r = Some 1
  /\ connected (log (snd r)) = false
  /\ exists before d,
       log (snd r) = before ++ [EPrintf d]
       /\ printed before = []
       /\ only no_transfer before = true
       /\ ((d = activation_diagnostic /\ only activating before = true)
           \/ d = connect_diagnostic)
       /\ forall mode, stdout_bytes mode (log (snd r)) = d.
Proof.
  split; [reflexivity|].
  apply (failed_run_prints_one_diagnostic 0 threaddump_1234 Sim.no_process);
    [simpl; lia | reflexivity].
Defined.

Lemma arguments_after_the_third_are_dropped_witness :
  exists r0 r1 r2 r3 r4 s',
    write_command 3 6 ["jcmd"; "GC.run"; "a"; "b"; "c"; "d"]%string
                  (boot Sim.listening) = (Some tt, s')
    /\ log s' = [EWrite 3 ("1" ++ nul) r0;
                 EWrite 3 ("jcmd" ++ nul) r1;
                 EWrite 3 ("GC.run" ++ nul) r2;
                 EWrite 3 ("a" ++ nul) r3;
                 EWrite 3 ("b" ++ nul) r4]%string.
Proof.
  apply (arguments_after_the_third_are_dropped
           3 "jattach" "1234" "jcmd" "GC.run" "a" "b" ["c"; "d"]%string
           (boot Sim.listening)); reflexivity.
Defined.

Lemma request_bytes_determine_the_fields_witness :
  "load"%string = "load"%string
  /\ nth 0 ["agent"]%string ""%string = nth 0 ["agent"; ""]%string ""%string
  /\ nth 1 ["agent"]%string ""%string = nth 1 ["agent"; ""]%string ""%string
  /\ nth 2 ["agent"]%string ""%string = nth 2 ["agent"; ""]%string ""%string.
Proof.
  apply (request_bytes_determine_the_fields
           3 4 "load" "load" ["agent"]%string ["agent"; ""]%string
           Sim.listening Sim.third_poll); reflexivity.
Defined.

Lemma completed_run_is_one_session_witness :
  let r := run 10 threaddump_1234 Sim.third_poll in
  fst r = Some 0
  /\ exists before fd cr0 rs chunks rd cr,
       log (snd r)
       = before
           ++ ESocket PF_UNIX SOCK_STREAM 0 fd
           :: EConnect fd AF_UNIX (socket_path 1234) cr0
           :: EPrintf banner
           :: request_events fd 1 ["threaddump"%string] rs
           ++ relay_events fd chunks
           ++ [ERead fd BUF_SIZE rd; EClose fd cr; EPrintf LF]
       /\ only activating before = true
       /\ fd <> -1 /\ cr0 <> -1 /\ ssize rd <= 0
       /\ opened (log (snd r)) = [fd]
       /\ closed (log (snd r)) = closed before ++ [fd].
Proof.
  split; [reflexivity|].
  apply (completed_run_is_one_session 0 threaddump_1234 Sim.third_poll);
    [simpl; lia | reflexivity].
Defined.

Lemma stdout_of_a_session_witness :
  let r := run 10 threaddump_1234 Sim.listening in
  let ev := log (snd r) in
  let response := bytes (writes_to 1 ev) in
  fst r = Some 0
  /\ response = "Full thread dump"%string
  /\ stdout_bytes IONBF ev = (banner ++ response ++ LF)%string
  /\ stdout_bytes IOLBF ev = (banner ++ response ++ LF)%string
  /\ stdout_bytes IOFBF ev = (response ++ banner ++ LF)%string.
Proof.
  split; [reflexivity|]. split; [reflexivity|].
  apply (stdout_of_a_session 0 threaddump_1234 Sim.listening);
    [simpl; lia | reflexivity |].
  intros fd cr Hin. vm_compute in Hin.
  repeat (destruct Hin as [Hin | Hin]; [try discriminate Hin|]);
    [|contradiction].
  injection Hin as <- _. discriminate.
Defined.

Lemma marker_lifecycle_in_every_run_witness :
  let r := run 10 threaddump_1234 Sim.no_process in
  let cut := firstn 5 (log (snd r)) in
  lifecycle cut
  = [Created "/tmp/.attach_pid1234"; Signalled 1234 SIGQUIT]
  /\ fst r = Some 1
  /\ lifecycle (log (snd r))
     = [Created "/tmp/.attach_pid1234"; Signalled 1234 SIGQUIT;
        Unlinked "/tmp/.attach_pid1234"]
  /\ stage 1234 (lifecycle cut)
  /\ settled 1234 (lifecycle (log (snd r))).
Proof.
  split; [reflexivity|]. split; [reflexivity|]. split; [reflexivity|].
  destruct (marker_lifecycle_in_every_run 0 threaddump_1234 Sim.no_process)
    as [Hstage Hsettled]; [simpl; lia|].
  split.
  - apply (Hstage (firstn 5 (log (snd (run 10 threaddump_1234 Sim.no_process))))
                  (skipn 5 (log (snd (run 10 threaddump_1234 Sim.no_process))))).
    reflexivity.
  - apply Hsettled. exists 1. reflexivity.
Defined.
